(** * Book service: a shallow embedding of the six API handlers

    The service (book-service.ts) is CRUD glue over one PostgreSQL table,

      CREATE TABLE book (
        id UUID PRIMARY KEY DEFAULT gen_random_uuid(),
        title TEXT NOT NULL, author TEXT NOT NULL,
        published_date DATE, isbn TEXT UNIQUE,
        created_at TIMESTAMP DEFAULT CURRENT_TIMESTAMP,
        updated_at TIMESTAMP DEFAULT CURRENT_TIMESTAMP);

    reached through the tagged templates [db.query], [db.queryRow] and
    [db.exec].  Every [${...}] hole of such a template is sent to the store
    as a bound parameter ($1, $2, ...), never spliced into the statement
    text.  The development has three layers:

    - [SqlTypes] and [Locale]: what the store decides and the handlers
      cannot see (the input and output syntax of UUID and DATE values, the
      collation used by ORDER BY, the case folding ILIKE applies);
    - the statements the handlers issue, each interpreted on a table (a
      list of rows) in a state-and-exception monad [DB];
    - the handlers themselves, written in that monad as in the source. *)

From Stdlib Require Import String Ascii List Bool Arith NArith Lia.
From Stdlib Require Import Sorting.Sorted Sorting.Permutation.
From Stdlib Require Import Eqdep_dec DecimalString.
Import ListNotations.

Local Open Scope string_scope.
Local Open Scope bool_scope.

(** ** Text *)

Module Text.

(** The double quote character, for messages that quote a name. *)
Definition dquote : ascii := "034"%char.

Definition quoted (s : string) : string :=
  String dquote (s ++ String dquote "").

(** JavaScript's [String.prototype.includes]: [needle] occurs in [s]. *)
Fixpoint includes (s needle : string) : bool :=
  String.prefix needle s
  || match s with
     | EmptyString => false
     | String _ s' => includes s' needle
     end.

(** JavaScript's [n.toString()] for the small naturals the handlers print. *)
Definition of_nat (n : nat) : string :=
  NilEmpty.string_of_uint (Nat.to_uint n).

(** Lower-casing of the ASCII letters; every other byte is kept. *)
Definition to_lower_char (c : ascii) : ascii :=
  let n := N_of_ascii c in
  if (65 <=? n)%N && (n <=? 90)%N then ascii_of_N (n + 32) else c.

Fixpoint lower (s : string) : string :=
  match s with
  | EmptyString => EmptyString
  | String c s' => String (to_lower_char c) (lower s')
  end.

(** The text holds a NUL character, which the store accepts in no text
    value. *)
Fixpoint has_nul (s : string) : bool :=
  match s with
  | EmptyString => false
  | String c s' => (c =? "000")%char || has_nul s'
  end.

(** A continuation byte of UTF-8 (10xxxxxx): it starts no character. *)
Definition is_continuation (c : ascii) : bool :=
  let n := N_of_ascii c in (128 <=? n)%N && (n <? 192)%N.

(** What is left of a text after the rest of the character whose first
    byte is already passed. *)
Fixpoint drop_continuation (s : string) : string :=
  match s with
  | EmptyString => EmptyString
  | String c s' => if is_continuation c then drop_continuation s' else s
  end.

(** The text starts at the start of a character (or is empty). *)
Definition at_boundary (s : string) : bool :=
  match s with
  | EmptyString => true
  | String c _ => negb (is_continuation c)
  end.

(** The proper suffixes of a text that start where a character starts:
    what is left after one, two, ... characters. *)
Fixpoint tails (s : string) : list string :=
  match s with
  | EmptyString => []
  | String _ s' => ((if at_boundary s' then [s'] else []) ++ tails s')%list
  end.

(** [needle] occurs in [s], starting where a character of [s] starts. *)
Definition occurs (s needle : string) : bool :=
  existsb (String.prefix needle) (s :: tails s).

Lemma append_nil_r (s : string) : s ++ "" = s.
Proof. induction s as [|c s IH]; simpl; congruence. Qed.

End Text.

(** ** What the store decides

    [uuid_in] and [date_in] are the store's input conversions for the
    parameters bound to a UUID or DATE column ([None]: the text is
    rejected), [uuid_out] and [date_out] print a stored value, and
    [text_leb] is the collation ORDER BY uses on TEXT. *)

Class SqlTypes : Type := {
  uuid : Type;
  uuid_eqb : uuid -> uuid -> bool;
  uuid_eqb_eq : forall a b, uuid_eqb a b = true <-> a = b;
  uuid_in : string -> option uuid;
  uuid_out : uuid -> string;
  uuid_in_out : forall u, uuid_in (uuid_out u) = Some u;
  date : Type;
  date_in : string -> option date;
  date_out : date -> string;
  text_leb : string -> string -> bool;
  text_leb_total : forall a b, text_leb a b = true \/ text_leb b a = true;
  text_leb_trans : forall a b c,
    text_leb a b = true -> text_leb b c = true -> text_leb a c = true
}.

Definition timestamp : Type := N.

(** ** The API types of the source *)

Module Book.
Record t : Type := mk {
  id : string;
  title : string;
  author : string;
  publishedDate : option string;
  isbn : option string
}.
End Book.

Module CreateBookParams.
Record t : Type := mk {
  title : string;
  author : string;
  publishedDate : option string;
  isbn : option string
}.
End CreateBookParams.

(** An absent property ([undefined]) is [None]. *)
Module UpdateBookParams.
Record t : Type := mk {
  id : string;
  title : option string;
  author : option string;
  publishedDate : option string;
  isbn : option string
}.
End UpdateBookParams.

Inductive ErrCode : Type :=
| NotFound
| AlreadyExists
| InvalidArgument
| Internal.

(** What a handler can throw: an [APIError] of its own, or the error the
    store raised, which carries the store's message. *)
Inductive exn : Type :=
| APIError (code : ErrCode) (msg : string)
| DbError (msg : string).

Definition message (e : exn) : string :=
  match e with
  | APIError _ msg => msg
  | DbError msg => msg
  end.

Inductive Outcome (A : Type) : Type :=
| Return (a : A)
| Throw (e : exn).

Arguments Return {A} a.
Arguments Throw {A} e.

(** ** The table *)

Module Row.
Section Columns.
Context `{ST : SqlTypes}.

Record t : Type := mk {
  id : uuid;
  title : string;
  author : string;
  published_date : option date;
  isbn : option string;
  created_at : timestamp;
  updated_at : timestamp
}.

End Columns.
End Row.

(** ** LIKE and ILIKE

    A pattern is read as the store reads it: [%] matches any run of
    characters, [_] any one character, a backslash makes the next character
    literal, anything else matches itself.  A pattern that ends in a lone
    backslash is an error ([None]).  Text is UTF-8: a character is a byte
    and the continuation bytes that follow it.  ILIKE folds the case of
    both sides. *)

Module Like.

Inductive tok : Type :=
| Any
| One
| Lit (c : ascii).

Fixpoint parse (p : string) : option (list tok) :=
  match p with
  | EmptyString => Some []
  | String c p' =>
      if (c =? "\")%char then
        match p' with
        | EmptyString => None
        | String d p'' => option_map (cons (Lit d)) (parse p'')
        end
      else if (c =? "%")%char then option_map (cons Any) (parse p')
      else if (c =? "_")%char then option_map (cons One) (parse p')
      else option_map (cons (Lit c)) (parse p')
  end.

(** [_] passes one character of the text, that is its first byte and the
    continuation bytes after it; [%] passes any number of characters. *)
Fixpoint matches (p : list tok) (s : string) {struct p} : bool :=
  match p with
  | [] => match s with EmptyString => true | String _ _ => false end
  | Any :: p' => existsb (matches p') (s :: Text.tails s)
  | One :: p' =>
      match s with
      | EmptyString => false
      | String _ s' => matches p' (Text.drop_continuation s')
      end
  | Lit c :: p' =>
      match s with
      | EmptyString => false
      | String d s' => (c =? d)%char && matches p' s'
      end
  end.

Definition like (text pattern : string) : option bool :=
  option_map (fun p => matches p text) (parse pattern).

(** ILIKE: LIKE on both sides folded by [fold], the case folding of the
    store's locale. *)
Definition ilike (fold : string -> string) (text pattern : string)
    : option bool :=
  like (fold text) (fold pattern).

(** The characters with a meaning of their own in a pattern. *)
Definition special (c : ascii) : bool :=
  (c =? "%")%char || (c =? "_")%char || (c =? "\")%char.

Fixpoint plain (s : string) : bool :=
  match s with
  | EmptyString => true
  | String c s' => negb (special c) && plain s'
  end.

End Like.

(** The case folding of the store's locale, which ILIKE applies to both
    of its sides.  It keeps the empty text and a percent sign at either
    end, it makes no pattern character, and it does not tell the case of
    the ASCII letters (a locale that folds an ASCII letter to a letter
    outside ASCII, as the Turkish ones do, is not among these). *)
Class Locale : Type := {
  text_lower : string -> string;
  text_lower_empty : text_lower "" = "";
  text_lower_percent_first : forall s,
    text_lower (String "%" s) = String "%" (text_lower s);
  text_lower_percent_last : forall s,
    text_lower (s ++ "%") = text_lower s ++ "%";
  text_lower_plain : forall s,
    Like.plain s = true -> Like.plain (text_lower s) = true;
  text_lower_ascii : forall s, text_lower (Text.lower s) = text_lower s
}.

(** ** The store and the handlers *)

Section Service.
Context `{ST : SqlTypes} `{LC : Locale}.

Definition table : Type := list Row.t.

(** State (the table) and exceptions. *)
Definition DB (A : Type) : Type := table -> Outcome A * table.

Definition ret {A} (a : A) : DB A := fun t => (Return a, t).

Definition throw {A} (e : exn) : DB A := fun t => (Throw e, t).

Definition bind {A B} (c : DB A) (k : A -> DB B) : DB B :=
  fun t =>
    match c t with
    | (Return a, t') => k a t'
    | (Throw e, t') => (Throw e, t')
    end.

Definition try_catch {A} (body : DB A) (handler : exn -> DB A) : DB A :=
  fun t =>
    match body t with
    | (Return a, t') => (Return a, t')
    | (Throw e, t') => handler e t'
    end.

Notation "x <- c ;; k" := (bind c (fun x => k))
  (at level 61, c at next level, right associativity).
Notation "c ;;; k" := (bind c (fun _ => k))
  (at level 61, right associativity).

(** *** Messages of the store *)

Definition invalid_input (type text : string) : string :=
  "invalid input syntax for type " ++ type ++ ": " ++ Text.quoted text.

Definition unique_violation (constraint : string) : string :=
  "duplicate key value violates unique constraint " ++ Text.quoted constraint.

Definition syntax_error_at (token : string) : string :=
  "syntax error at or near " ++ Text.quoted token.

Definition bad_escape : string :=
  "LIKE pattern must not end with escape character".

Definition invalid_byte_sequence : string :=
  "invalid byte sequence for encoding " ++ Text.quoted "UTF8" ++ ": 0x00".

(** *** The select list

    [id, title, author, published_date AS "publishedDate", isbn]: the five
    columns every SELECT and RETURNING of the handlers names. *)
Definition select_book (r : Row.t) : Book.t :=
  {| Book.id := uuid_out (Row.id r);
     Book.title := Row.title r;
     Book.author := Row.author r;
     Book.publishedDate := option_map date_out (Row.published_date r);
     Book.isbn := Row.isbn r |}.

(** ORDER BY title ASC. *)
Fixpoint insert_by_title (r : Row.t) (l : list Row.t) : list Row.t :=
  match l with
  | [] => [r]
  | x :: l' =>
      if text_leb (Row.title r) (Row.title x) then r :: l
      else x :: insert_by_title r l'
  end.

Definition order_by_title (l : list Row.t) : list Row.t :=
  fold_right insert_by_title [] l.

Definition has_id (u : uuid) (r : Row.t) : bool := uuid_eqb (Row.id r) u.

Definition has_isbn (i : string) (r : Row.t) : bool :=
  match Row.isbn r with
  | Some j => (i =? j)%string
  | None => false
  end.

(** A text parameter bound to the UUID column. *)
Definition bind_uuid {A} (id : string) (k : uuid -> DB A) : DB A :=
  match uuid_in id with
  | Some u => k u
  | None => throw (DbError (invalid_input "uuid" id))
  end.

(** A text parameter, or NULL, bound to the DATE column. *)
Definition bind_date {A} (d : option string) (k : option date -> DB A) : DB A :=
  match d with
  | None => k None
  | Some s =>
      match date_in s with
      | Some v => k (Some v)
      | None => throw (DbError (invalid_input "date" s))
      end
  end.

(** A text parameter bound to a TEXT column or compared with one: the
    store takes no text that holds a NUL character. *)
Definition bind_text {A} (s : string) (k : DB A) : DB A :=
  if Text.has_nul s then throw (DbError invalid_byte_sequence) else k.

(** A text parameter or NULL. *)
Definition bind_text_opt {A} (s : option string) (k : DB A) : DB A :=
  match s with
  | Some x => bind_text x k
  | None => k
  end.

(** *** The statements

    [SELECT id, ... FROM book ORDER BY title ASC] *)
Definition sql_select_books : DB (list Book.t) :=
  fun t => (Return (map select_book (order_by_title t)), t).

(** [SELECT id, ... FROM book WHERE id = $1], first row or null. *)
Definition sql_select_book_by_id (id : string) : DB (option Book.t) :=
  bind_uuid id (fun u t =>
    (Return (option_map select_book (find (has_id u) t)), t)).

(** [SELECT 1 FROM book WHERE id = $1], first row or null. *)
Definition sql_select_one_by_id (id : string) : DB (option N) :=
  bind_uuid id (fun u t =>
    (Return (option_map (fun _ => 1%N) (find (has_id u) t)), t)).

(** [INSERT INTO book (title, author, published_date, isbn)
     VALUES ($1, $2, $3, $4) RETURNING id, ...].
    [fresh] is what [gen_random_uuid()] yields for this row and [now] is
    CURRENT_TIMESTAMP.  The parameters are bound in their order, then the
    primary key and the UNIQUE constraint on isbn are checked; NULL never
    collides. *)
Definition sql_insert_book (fresh : uuid) (now : timestamp)
    (title author : string) (publishedDate isbn : option string)
    : DB (option Book.t) :=
  bind_text title (bind_text author (bind_date publishedDate (fun d =>
  bind_text_opt isbn (fun t =>
    if existsb (has_id fresh) t then
      (Throw (DbError (unique_violation "book_pkey")), t)
    else if match isbn with
            | Some i => existsb (has_isbn i) t
            | None => false
            end then
      (Throw (DbError (unique_violation "book_isbn_key")), t)
    else
      let r := {| Row.id := fresh;
                  Row.title := title;
                  Row.author := author;
                  Row.published_date := d;
                  Row.isbn := isbn;
                  Row.created_at := now;
                  Row.updated_at := now |} in
      (Return (Some (select_book r)), (t ++ [r])%list))))).

(** [UPDATE book SET $1 WHERE id = $2 RETURNING id, ...].
    The handler writes [SET ${updateClause}]: its assembled clause stands
    in a hole of the template, exactly as [params.id] does in
    [WHERE id = ${params.id}], so the store receives the clause as the
    value of parameter $1 and the statement text has a placeholder where
    SET needs a column assignment.  The store rejects that text when it
    parses it, before any parameter or row is looked at. *)
Definition sql_update_set (updateClause id : string) : DB (option Book.t) :=
  throw (DbError (syntax_error_at "$1")).

(** [DELETE FROM book WHERE id = $1] *)
Definition sql_delete_by_id (id : string) : DB unit :=
  bind_uuid id (fun u t => (Return tt, filter (fun r => negb (has_id u r)) t)).

(** [WHERE title ILIKE $1 OR author ILIKE $2] on one row. *)
Definition where_ilike (p1 p2 : string) (r : Row.t) : option bool :=
  match Like.ilike text_lower (Row.title r) p1,
        Like.ilike text_lower (Row.author r) p2 with
  | Some a, Some b => Some (a || b)
  | _, _ => None
  end.

Fixpoint filter_where (f : Row.t -> option bool) (l : list Row.t)
    : option (list Row.t) :=
  match l with
  | [] => Some []
  | r :: l' =>
      match f r, filter_where f l' with
      | Some true, Some k => Some (r :: k)
      | Some false, Some k => Some k
      | _, _ => None
      end
  end.

(** [SELECT id, ... FROM book WHERE title ILIKE $1 OR author ILIKE $2
     ORDER BY title ASC] *)
Definition sql_select_books_ilike (p1 p2 : string) : DB (list Book.t) :=
  bind_text p1 (bind_text p2 (fun t =>
    match filter_where (where_ilike p1 p2) t with
    | Some rows => (Return (map select_book (order_by_title rows)), t)
    | None => (Throw (DbError bad_escape), t)
    end)).

(** *** The handlers

    A response object with one property ([{ books }], [{ book }],
    [{ success }]) is represented by that property. *)

(** GET /books *)
Definition listBooks : DB (list Book.t) :=
  rows <- sql_select_books ;;
  ret rows.

(** GET /books/:id *)
Definition getBook (id : string) : DB Book.t :=
  book <- sql_select_book_by_id id ;;
  match book with
  | None => throw (APIError NotFound ("Book with ID " ++ id ++ " not found"))
  | Some b => ret b
  end.

(** The [catch] clause shared by [createBook] and [updateBook]. *)
Definition on_duplicate_key {A} (err : exn) : DB A :=
  if Text.includes (message err) "duplicate key" then
    throw (APIError AlreadyExists "A book with this ISBN already exists")
  else throw err.

(** POST /books *)
Definition createBook (fresh : uuid) (now : timestamp)
    (params : CreateBookParams.t) : DB Book.t :=
  try_catch
    (result <- sql_insert_book fresh now
                 (CreateBookParams.title params)
                 (CreateBookParams.author params)
                 (CreateBookParams.publishedDate params)
                 (CreateBookParams.isbn params) ;;
     match result with
     | None => throw (APIError Internal "Failed to create book")
     | Some b => ret b
     end)
    on_duplicate_key.

(** [if (v !== undefined) { updates.push(column + " = $" + (values.length + 1));
    values.push(v); }] on the pair of arrays ([updates], [values]). *)
Definition push_field (column : string) (v : option string)
    (arrays : list string * list string) : list string * list string :=
  match v with
  | Some x =>
      let '(updates, values) := arrays in
      let assignment := column ++ " = $" ++ Text.of_nat (List.length values + 1) in
      ((updates ++ [assignment])%list, (values ++ [x])%list)
  | None => arrays
  end.

(** The [updates] and [values] arrays as they stand before the update is
    performed. *)
Definition build_updates (params : UpdateBookParams.t)
    : list string * list string :=
  let arrays := ([], []) in
  let arrays := push_field "title" (UpdateBookParams.title params) arrays in
  let arrays := push_field "author" (UpdateBookParams.author params) arrays in
  let arrays :=
    push_field "published_date" (UpdateBookParams.publishedDate params) arrays in
  let arrays := push_field "isbn" (UpdateBookParams.isbn params) arrays in
  let '(updates, values) := arrays in
  ((updates ++ ["updated_at = CURRENT_TIMESTAMP"])%list, values).

(** PUT /books/:id.  [values] is filled and never read: only [updateClause]
    and [params.id] are handed to the store. *)
Definition updateBook (params : UpdateBookParams.t) : DB Book.t :=
  let id := UpdateBookParams.id params in
  exists_ <- sql_select_one_by_id id ;;
  match exists_ with
  | None => throw (APIError NotFound ("Book with ID " ++ id ++ " not found"))
  | Some _ =>
      try_catch
        (let '(updates, values) := build_updates params in
         if (List.length updates =? 1)%nat
            && match nth_error updates 0 with
               | Some u => (u =? "updated_at = CURRENT_TIMESTAMP")%string
               | None => false
               end
         then
           throw (APIError InvalidArgument "No fields to update were provided")
         else
           let updateClause := String.concat ", " updates in
           book <- sql_update_set updateClause id ;;
           match book with
           | None => throw (APIError Internal "Failed to update book")
           | Some b => ret b
           end)
        on_duplicate_key
  end.

(** DELETE /books/:id *)
Definition deleteBook (id : string) : DB bool :=
  sql_delete_by_id id ;;;
  (stillExists <- sql_select_one_by_id id ;;
   match stillExists with
   | Some _ => throw (APIError NotFound ("Book with ID " ++ id ++ " not found"))
   | None => ret true
   end).

(** GET /books/search *)
Definition searchBooks (query : string) : DB (list Book.t) :=
  let searchPattern := "%" ++ query ++ "%" in
  rows <- sql_select_books_ilike searchPattern searchPattern ;;
  ret rows.

End Service.

(** ** A concrete store

    UUID text is read as PostgreSQL reads it (sixteen octets of two hex
    digits, a hyphen allowed after every second octet, braces allowed
    around the whole) and printed in the canonical 8-4-4-4-12 lower-case
    form; a DATE is read in the ISO spelling year-month-day only and
    printed as [YYYY-MM-DD]; TEXT is compared byte by byte and only the
    ASCII letters have a case (the C collation and character type). *)

Module Pg.

Definition hex_value (c : ascii) : option N :=
  let n := N_of_ascii c in
  if (48 <=? n)%N && (n <=? 57)%N then Some (n - 48)%N
  else if (97 <=? n)%N && (n <=? 102)%N then Some (n - 87)%N
  else if (65 <=? n)%N && (n <=? 70)%N then Some (n - 55)%N
  else None.

Definition hex_digit (n : N) : ascii :=
  ascii_of_N (if (n <? 10)%N then n + 48 else n + 87).

Definition octet_of_hex (h l : ascii) : option ascii :=
  match hex_value h, hex_value l with
  | Some a, Some b => Some (ascii_of_N (16 * a + b))
  | _, _ => None
  end.

Definition hi (o : ascii) : ascii := hex_digit (N_of_ascii o / 16).
Definition lo (o : ascii) : ascii := hex_digit (N_of_ascii o mod 16).

(** After octet number [i], one hyphen is passed over when [i] is odd and
    the octet is not the last. *)
Definition skip_hyphen (i : nat) (s : string) : string :=
  match s with
  | String c r =>
      if (c =? "-")%char && (Nat.odd i && (i <? 15)%nat) then r else s
  | EmptyString => s
  end.

(** Reads [n] octets, the first of them being octet number [i]. *)
Fixpoint octets_in (n i : nat) (s : string) : option (list ascii * string) :=
  match n with
  | O => Some ([], s)
  | S n' =>
      match s with
      | String h (String l s') =>
          match octet_of_hex h l with
          | Some o =>
              match octets_in n' (S i) (skip_hyphen i s') with
              | Some (os, rest) => Some (o :: os, rest)
              | None => None
              end
          | None => None
          end
      | _ => None
      end
  end.

Definition hyphen_after (i : nat) : bool :=
  match i with
  | 3 | 5 | 7 | 9 => true
  | _ => false
  end.

Fixpoint octets_out (i : nat) (l : list ascii) : string :=
  match l with
  | [] => ""
  | o :: l' =>
      String (hi o) (String (lo o)
        ((if hyphen_after i then "-" else "") ++ octets_out (S i) l'))
  end.

Record pg_uuid : Type := {
  octets : list ascii;
  octets_16 : (List.length octets =? 16)%nat = true
}.

Definition of_octets (l : list ascii) : option pg_uuid :=
  (if (List.length l =? 16)%nat as b
      return ((List.length l =? 16)%nat = b -> option pg_uuid)
   then fun H => Some {| octets := l; octets_16 := H |}
   else fun _ => None) eq_refl.

Definition pg_uuid_in (s : string) : option pg_uuid :=
  let '(braces, body) :=
    match s with
    | String c r => if (c =? "{")%char then (true, r) else (false, s)
    | EmptyString => (false, s)
    end in
  match octets_in 16 0 body with
  | Some (os, rest) =>
      if (rest =? (if braces : bool then "}" else ""))%string
      then of_octets os else None
  | None => None
  end.

Definition pg_uuid_out (u : pg_uuid) : string := octets_out 0 (octets u).

Fixpoint octets_eqb (a b : list ascii) : bool :=
  match a, b with
  | [], [] => true
  | x :: a', y :: b' => (x =? y)%char && octets_eqb a' b'
  | _, _ => false
  end.

Definition pg_uuid_eqb (a b : pg_uuid) : bool :=
  octets_eqb (octets a) (octets b).

Definition is_digit (c : ascii) : bool :=
  let n := N_of_ascii c in (48 <=? n)%N && (n <=? 57)%N.

(** The number a run of digits writes, after the digits read so far. *)
Fixpoint digits_value (acc : N) (s : string) : option N :=
  match s with
  | EmptyString => Some acc
  | String c s' =>
      if is_digit c then digits_value (10 * acc + (N_of_ascii c - 48)) s'
      else None
  end.

Definition number (s : string) : option N :=
  match s with
  | EmptyString => None
  | String _ _ => digits_value 0 s
  end.

(** The parts of a text between its hyphens. *)
Fixpoint fields (s : string) : list string :=
  match s with
  | EmptyString => [EmptyString]
  | String c s' =>
      if (c =? "-")%char then EmptyString :: fields s'
      else match fields s' with
           | f :: fs => String c f :: fs
           | [] => [String c EmptyString]
           end
  end.

Definition leap (y : N) : bool :=
  ((y mod 4 =? 0) && (negb (y mod 100 =? 0) || (y mod 400 =? 0)))%N.

Definition days_in_month (y m : N) : N :=
  if (m =? 2)%N then (if leap y then 29 else 28)%N
  else if ((m =? 4) || (m =? 6) || (m =? 9) || (m =? 11))%N then 30%N
  else 31%N.

(** Year, month and day. *)
Definition pg_date : Type := (N * N * N)%type.

(** Year-month-day, the year of four digits, month and day of one or two,
    and the day one the month has. *)
Definition pg_date_in (s : string) : option pg_date :=
  match fields s with
  | [y; m; d] =>
      if ((String.length y =? 4) && (String.length m <=? 2)
          && (String.length d <=? 2))%nat
      then
        match number y, number m, number d with
        | Some yy, Some mm, Some dd =>
            if ((1 <=? yy) && (1 <=? mm) && (mm <=? 12)
                && (1 <=? dd) && (dd <=? days_in_month yy mm))%N
            then Some (yy, mm, dd) else None
        | _, _, _ => None
        end
      else None
  | _ => None
  end.

Definition digit (n : N) : ascii := ascii_of_N (48 + n mod 10).

Definition two_digits (n : N) : string :=
  String (digit (n / 10)) (String (digit n) "").

(** [YYYY-MM-DD] *)
Definition pg_date_out (d : pg_date) : string :=
  let '(y, m, a) := d in
  two_digits (y / 100) ++ two_digits y ++ "-" ++ two_digits m
  ++ "-" ++ two_digits a.

Lemma octet_of_hex_hi_lo (o : ascii) : octet_of_hex (hi o) (lo o) = Some o.
Proof. destruct o as [[] [] [] [] [] [] [] []]; reflexivity. Qed.

Lemma hi_not_hyphen (o : ascii) : (hi o =? "-")%char = false.
Proof. destruct o as [[] [] [] [] [] [] [] []]; reflexivity. Qed.

Lemma hyphen_after_skipped (i : nat) :
  hyphen_after i = true -> Nat.odd i && (i <? 15)%nat = true.
Proof.
  do 10 (destruct i as [|i]; [simpl; congruence || reflexivity|]).
  simpl. congruence.
Qed.

Lemma skip_hyphen_hyphen (i : nat) (s : string) :
  hyphen_after i = true -> skip_hyphen i (String "-" s) = s.
Proof.
  intros H. cbn [skip_hyphen].
  rewrite (hyphen_after_skipped i H). reflexivity.
Qed.

Lemma skip_hyphen_octets (i : nat) (l : list ascii) (rest : string) :
  S i + List.length l = 16 ->
  skip_hyphen i (octets_out (S i) l ++ rest) = octets_out (S i) l ++ rest.
Proof.
  intros Hlen. destruct l as [|o l].
  - assert (i = 15) by (simpl in Hlen; lia). subst i.
    destruct rest as [|c r]; [reflexivity|].
    cbn [octets_out String.append skip_hyphen].
    rewrite Bool.andb_false_r. reflexivity.
  - cbn [octets_out String.append skip_hyphen].
    rewrite hi_not_hyphen. reflexivity.
Qed.

Lemma octets_in_out (l : list ascii) : forall (i : nat) (rest : string),
  i + List.length l = 16 ->
  octets_in (List.length l) i (octets_out i l ++ rest) = Some (l, rest).
Proof.
  induction l as [|o l IH]; intros i rest Hlen; [reflexivity|].
  assert (Hnext : S i + List.length l = 16) by (simpl in Hlen; lia).
  cbn [List.length octets_in octets_out String.append].
  rewrite octet_of_hex_hi_lo.
  destruct (hyphen_after i) eqn:Hh.
  - cbn [String.append].
    rewrite (skip_hyphen_hyphen i _ Hh), (IH (S i) rest Hnext). reflexivity.
  - cbn [String.append].
    rewrite (skip_hyphen_octets i l rest Hnext), (IH (S i) rest Hnext).
    reflexivity.
Qed.

Lemma pg_uuid_ext (a b : pg_uuid) : octets a = octets b -> a = b.
Proof.
  destruct a as [oa Ha], b as [ob Hb]; simpl; intros ->.
  f_equal. apply UIP_dec, Bool.bool_dec.
Qed.

Lemma of_octets_octets (u : pg_uuid) : of_octets (octets u) = Some u.
Proof.
  destruct u as [l Hl]. unfold of_octets. simpl.
  generalize (eq_refl ((List.length l =? 16)%nat)).
  generalize ((List.length l =? 16)%nat) at 2 3.
  intros b. destruct b; intros e.
  - f_equal. apply pg_uuid_ext. reflexivity.
  - congruence.
Qed.

Lemma pg_uuid_in_out (u : pg_uuid) : pg_uuid_in (pg_uuid_out u) = Some u.
Proof.
  unfold pg_uuid_in, pg_uuid_out.
  pose proof (octets_16 u) as H16. apply Nat.eqb_eq in H16.
  destruct (octets u) as [|o l] eqn:Ho; [discriminate|].
  assert (Hb : (hi o =? "{")%char = false)
    by (destruct o as [[] [] [] [] [] [] [] []]; reflexivity).
  cbn [octets_out]. rewrite Hb.
  change (String (hi o) (String (lo o)
           ((if hyphen_after 0 then "-" else "") ++ octets_out 1 l)))
    with (octets_out 0 (o :: l)).
  rewrite <- (Text.append_nil_r (octets_out 0 (o :: l))) at 1.
  pose proof (octets_in_out (o :: l) 0 "") as Hr.
  rewrite H16 in Hr. rewrite (Hr eq_refl). simpl ((_ =? _)%string).
  rewrite <- Ho. apply of_octets_octets.
Qed.

Lemma octets_eqb_eq (a b : list ascii) : octets_eqb a b = true <-> a = b.
Proof.
  revert b; induction a as [|x a IH]; intros [|y b]; simpl;
    try (split; congruence).
  rewrite Bool.andb_true_iff, Ascii.eqb_eq, IH. split.
  - intros [-> ->]. reflexivity.
  - intros H. inversion H. auto.
Qed.

Lemma pg_uuid_eqb_eq (a b : pg_uuid) : pg_uuid_eqb a b = true <-> a = b.
Proof.
  unfold pg_uuid_eqb. rewrite octets_eqb_eq. split.
  - apply pg_uuid_ext.
  - intros ->. reflexivity.
Qed.

Lemma ascii_compare_refl (a : ascii) : Ascii.compare a a = Eq.
Proof. unfold Ascii.compare. apply N.compare_refl. Qed.

Lemma string_compare_trans (a : string) : forall b c,
  String.compare a b <> Gt -> String.compare b c <> Gt ->
  String.compare a c <> Gt.
Proof.
  induction a as [|x a IH]; intros [|y b] [|z c]; simpl; try congruence.
  destruct (Ascii.compare x y) eqn:Exy; try congruence;
    destruct (Ascii.compare y z) eqn:Eyz; try congruence.
  - apply Ascii.compare_eq_iff in Exy, Eyz. subst.
    rewrite ascii_compare_refl. apply IH.
  - apply Ascii.compare_eq_iff in Exy. subst. rewrite Eyz. congruence.
  - apply Ascii.compare_eq_iff in Eyz. subst. rewrite Exy. congruence.
  - unfold Ascii.compare in *.
    rewrite N.compare_lt_iff in Exy, Eyz.
    assert (H : (N_of_ascii x ?= N_of_ascii z)%N = Lt)
      by (apply N.compare_lt_iff; lia).
    rewrite H. congruence.
Qed.

Lemma string_leb_trans (a b c : string) :
  String.leb a b = true -> String.leb b c = true -> String.leb a c = true.
Proof.
  unfold String.leb. intros Hab Hbc.
  pose proof (string_compare_trans a b c) as H.
  destruct (String.compare a b); try discriminate;
    destruct (String.compare b c); try discriminate;
    destruct (String.compare a c); try reflexivity;
    exfalso; apply H; congruence.
Qed.

#[export] Instance store : SqlTypes := {|
  uuid := pg_uuid;
  uuid_eqb := pg_uuid_eqb;
  uuid_eqb_eq := pg_uuid_eqb_eq;
  uuid_in := pg_uuid_in;
  uuid_out := pg_uuid_out;
  uuid_in_out := pg_uuid_in_out;
  date := pg_date;
  date_in := pg_date_in;
  date_out := pg_date_out;
  text_leb := String.leb;
  text_leb_total := String.leb_total;
  text_leb_trans := string_leb_trans
|}.

End Pg.

(** * Properties *)

(** ** Substrings and patterns *)

(** The literal tokens of a text. *)
Fixpoint lits (q : string) : list Like.tok :=
  match q with
  | EmptyString => []
  | String c q' => Like.Lit c :: lits q'
  end.

Lemma prefix_append (q s : string) :
  String.prefix q s = true <-> exists post, s = q ++ post.
Proof.
  revert s; induction q as [|c q IH]; intros s.
  - split; [intros _; exists s; reflexivity|]. intros _. destruct s; reflexivity.
  - destruct s as [|d s]; simpl.
    + split; [discriminate|]. intros [post H]. discriminate.
    + destruct (ascii_dec c d) as [->|Hne].
      * rewrite IH. split; intros [post H]; exists post.
        -- rewrite H. reflexivity.
        -- inversion H. reflexivity.
      * split; [discriminate|]. intros [post H]. inversion H. congruence.
Qed.

Lemma lower_append (a b : string) :
  Text.lower (a ++ b) = Text.lower a ++ Text.lower b.
Proof. induction a as [|c a IH]; simpl; congruence. Qed.

Lemma special_to_lower (c : ascii) :
  Like.special (Text.to_lower_char c) = Like.special c.
Proof. destruct c as [[] [] [] [] [] [] [] []]; reflexivity. Qed.

Lemma plain_lower (q : string) : Like.plain (Text.lower q) = Like.plain q.
Proof.
  induction q as [|c q IH]; simpl; [reflexivity|].
  rewrite special_to_lower, IH. reflexivity.
Qed.

Lemma option_map_compose {A B C} (f : A -> B) (g : B -> C) (o : option A) :
  option_map g (option_map f o) = option_map (fun x => g (f x)) o.
Proof. destruct o; reflexivity. Qed.

Lemma parse_cons_plain (c : ascii) (p : string) :
  Like.special c = false ->
  Like.parse (String c p) = option_map (cons (Like.Lit c)) (Like.parse p).
Proof.
  unfold Like.special. intros H.
  apply Bool.orb_false_iff in H. destruct H as [H Hb].
  apply Bool.orb_false_iff in H. destruct H as [Hp Hu].
  cbn [Like.parse]. rewrite Hb, Hp, Hu. reflexivity.
Qed.

Lemma parse_plain (q p : string) :
  Like.plain q = true ->
  Like.parse (q ++ p) = option_map (app (lits q)) (Like.parse p).
Proof.
  induction q as [|c q IH]; intros H.
  - simpl. destruct (Like.parse p); reflexivity.
  - simpl in H. apply Bool.andb_true_iff in H. destruct H as [Hc Hq].
    apply Bool.negb_true_iff in Hc.
    change (String c q ++ p) with (String c (q ++ p)).
    rewrite (parse_cons_plain c _ Hc), (IH Hq), option_map_compose.
    reflexivity.
Qed.

(** The pattern of [searchBooks] for a query without pattern characters. *)
Lemma parse_search_pattern_plain (q : string) :
  Like.plain q = true ->
  Like.parse ("%" ++ q ++ "%") = Some (Like.Any :: lits q ++ [Like.Any])%list.
Proof.
  intros H. change ("%" ++ q ++ "%") with (String "%" (q ++ "%")).
  cbn [Like.parse]. simpl ((_ =? _)%char).
  rewrite (parse_plain q "%" H). reflexivity.
Qed.

(** Whatever the query, the pattern of [searchBooks] ends in [%], so it
    never ends in a lone escape. *)
Lemma parse_percent_end (q : string) :
  (exists p, Like.parse (q ++ "%") = Some p)
  /\ forall c, exists p, Like.parse (String c (q ++ "%")) = Some p.
Proof.
  induction q as [|d q [IHq IHc]].
  - split; [eexists; reflexivity|]. intros c.
    cbn [String.append Like.parse].
    destruct (c =? "\")%char; [eexists; reflexivity|].
    destruct (c =? "%")%char; [eexists; reflexivity|].
    destruct (c =? "_")%char; eexists; reflexivity.
  - split; [exact (IHc d)|]. intros c.
    change (String d q ++ "%") with (String d (q ++ "%")).
    destruct IHq as [p Hp]. destruct (IHc d) as [p' Hp'].
    cbn [Like.parse] in *.
    destruct (c =? "\")%char.
    + rewrite Hp. eexists; reflexivity.
    + rewrite Hp'.
      destruct (c =? "%")%char; [eexists; reflexivity|].
      destruct (c =? "_")%char; eexists; reflexivity.
Qed.

Lemma parse_search_pattern (q : string) :
  exists p, Like.parse ("%" ++ q ++ "%") = Some p.
Proof. exact (proj2 (parse_percent_end q) "%"%char). Qed.

Lemma in_tails_empty (s : string) : In EmptyString (s :: Text.tails s).
Proof.
  induction s as [|c s IH]; [left; reflexivity|].
  right. cbn [Text.tails]. destruct s as [|d s].
  - left. reflexivity.
  - apply in_or_app. right. destruct IH as [H|H]; [discriminate|exact H].
Qed.

Lemma matches_trailing_any (s : string) : Like.matches [Like.Any] s = true.
Proof.
  cbn [Like.matches]. apply existsb_exists. exists EmptyString.
  split; [apply in_tails_empty|reflexivity].
Qed.

Lemma matches_lits_spec (q : string) (p : list Like.tok) (s : string) :
  Like.matches (lits q ++ p) s = true
  <-> exists post, s = q ++ post /\ Like.matches p post = true.
Proof.
  revert s; induction q as [|c q IH]; intros s.
  - simpl. split.
    + intros H. exists s. auto.
    + intros [post [-> H]]. exact H.
  - destruct s as [|d s]; cbn [lits app Like.matches].
    + split; [discriminate|]. intros [post [E _]]. discriminate.
    + rewrite Bool.andb_true_iff, Ascii.eqb_eq, IH. split.
      * intros [-> [post [-> M]]]. exists post. auto.
      * intros [post [E M]]. inversion E. subst. split; [reflexivity|].
        exists post. auto.
Qed.

Lemma matches_lits_prefix (q s : string) :
  Like.matches (lits q ++ [Like.Any]) s = String.prefix q s.
Proof.
  apply Bool.eq_iff_eq_true. rewrite matches_lits_spec, prefix_append. split.
  - intros [post [E _]]. exists post. exact E.
  - intros [post E]. exists post. split; [exact E|].
    apply matches_trailing_any.
Qed.

Lemma existsb_pointwise {A} (f g : A -> bool) (l : list A) :
  (forall x, f x = g x) -> existsb f l = existsb g l.
Proof.
  intros H. induction l as [|x l IH]; simpl; [reflexivity|].
  rewrite H, IH. reflexivity.
Qed.

(** A pattern [%q%] whose [q] is literal matches exactly the texts in
    which [q] occurs. *)
Lemma matches_substring (q s : string) :
  Like.matches (Like.Any :: lits q ++ [Like.Any]) s = Text.occurs s q.
Proof.
  cbn [Like.matches]. unfold Text.occurs.
  apply existsb_pointwise, matches_lits_prefix.
Qed.

Lemma lower_idempotent (s : string) : Text.lower (Text.lower s) = Text.lower s.
Proof.
  induction s as [|c s IH]; simpl; [reflexivity|]. rewrite IH. f_equal.
  destruct c as [[] [] [] [] [] [] [] []]; reflexivity.
Qed.

Lemma has_nul_lower (s : string) : Text.has_nul (Text.lower s) = Text.has_nul s.
Proof.
  induction s as [|c s IH]; simpl; [reflexivity|]. rewrite IH. f_equal.
  destruct c as [[] [] [] [] [] [] [] []]; reflexivity.
Qed.

Lemma has_nul_append (a b : string) :
  Text.has_nul (a ++ b) = Text.has_nul a || Text.has_nul b.
Proof.
  induction a as [|c a IH]; simpl; [reflexivity|].
  rewrite IH, Bool.orb_assoc. reflexivity.
Qed.

Lemma has_nul_search_pattern (q : string) :
  Text.has_nul ("%" ++ q ++ "%") = Text.has_nul q.
Proof.
  change ("%" ++ q ++ "%") with (String "%" (q ++ "%")).
  cbn [Text.has_nul]. simpl ((_ =? _)%char).
  rewrite has_nul_append. simpl. apply Bool.orb_false_r.
Qed.

(** The C character type: only the ASCII letters are folded. *)
Module C_ctype.

#[export] Instance locale : Locale := {|
  text_lower := Text.lower;
  text_lower_empty := eq_refl;
  text_lower_percent_first := fun s => eq_refl;
  text_lower_percent_last := fun s => lower_append s "%";
  text_lower_plain := fun s H => eq_trans (plain_lower s) H;
  text_lower_ascii := lower_idempotent
|}.

End C_ctype.

Section Folding.
Context `{LC : Locale}.

(** "[text] contains [query] as a case-insensitive substring": after
    folding, the query occurs in the text. *)
Definition contains_ci (text query : string) : bool :=
  Text.occurs (text_lower text) (text_lower query).

Lemma search_pattern_lower (q : string) :
  text_lower ("%" ++ q ++ "%") = "%" ++ text_lower q ++ "%".
Proof.
  change ("%" ++ q ++ "%") with (String "%" (q ++ "%")).
  rewrite text_lower_percent_first, text_lower_percent_last. reflexivity.
Qed.

Lemma ilike_search_pattern (text q : string) :
  exists b, Like.ilike text_lower text ("%" ++ q ++ "%") = Some b.
Proof.
  unfold Like.ilike, Like.like. rewrite search_pattern_lower.
  destruct (parse_search_pattern (text_lower q)) as [p Hp].
  rewrite Hp. eexists; reflexivity.
Qed.

Lemma ilike_plain (text q : string) :
  Like.plain q = true ->
  Like.ilike text_lower text ("%" ++ q ++ "%") = Some (contains_ci text q).
Proof.
  intros H. unfold Like.ilike, Like.like, contains_ci.
  rewrite search_pattern_lower.
  rewrite parse_search_pattern_plain by (apply text_lower_plain; exact H).
  cbn [option_map]. rewrite matches_substring. reflexivity.
Qed.

End Folding.

(** ** The store *)

Section Facts.
Context `{ST : SqlTypes}.

(** Title order under the store's collation. *)
Definition title_le (a b : Row.t) : Prop :=
  text_leb (Row.title a) (Row.title b) = true.

Lemma insert_by_title_perm (r : Row.t) (l : list Row.t) :
  Permutation (insert_by_title r l) (r :: l).
Proof.
  induction l as [|x l IH]; simpl; [reflexivity|].
  destruct (text_leb (Row.title r) (Row.title x)); [reflexivity|].
  rewrite IH. apply perm_swap.
Qed.

Lemma order_by_title_perm (l : list Row.t) : Permutation (order_by_title l) l.
Proof.
  induction l as [|r l IH]; simpl; [reflexivity|].
  rewrite insert_by_title_perm. apply perm_skip, IH.
Qed.

Lemma insert_by_title_sorted (r : Row.t) (l : list Row.t) :
  StronglySorted title_le l -> StronglySorted title_le (insert_by_title r l).
Proof.
  induction 1 as [|x l Hs IH Hx]; simpl.
  - constructor; constructor.
  - destruct (text_leb (Row.title r) (Row.title x)) eqn:E.
    + constructor; [constructor; assumption|].
      constructor; [exact E|].
      eapply Forall_impl; [|exact Hx].
      intros y Hy. eapply text_leb_trans; [exact E|exact Hy].
    + constructor; [exact IH|].
      eapply Permutation_Forall.
      * symmetry. apply insert_by_title_perm.
      * constructor; [|exact Hx].
        destruct (text_leb_total (Row.title r) (Row.title x)) as [H|H];
          [congruence|exact H].
Qed.

Lemma order_by_title_sorted (l : list Row.t) :
  StronglySorted title_le (order_by_title l).
Proof.
  induction l as [|r l IH]; simpl; [constructor|].
  apply insert_by_title_sorted, IH.
Qed.

Lemma has_id_iff (u : uuid) (r : Row.t) : has_id u r = true <-> Row.id r = u.
Proof. apply uuid_eqb_eq. Qed.

Lemma find_has_id_none (u : uuid) (t : table) :
  (forall r, In r t -> Row.id r <> u) -> find (has_id u) t = None.
Proof.
  intros H. destruct (find (has_id u) t) as [r|] eqn:E; [|reflexivity].
  apply find_some in E. destruct E as [Hin Hid].
  apply has_id_iff in Hid. destruct (H r Hin Hid).
Qed.

Lemma find_has_id_some (u : uuid) (t : table) :
  (exists r, In r t /\ Row.id r = u) ->
  exists r, find (has_id u) t = Some r /\ In r t /\ Row.id r = u.
Proof.
  intros [r [Hin Hid]].
  destruct (find (has_id u) t) as [r'|] eqn:E.
  - exists r'. apply find_some in E. destruct E as [Hin' Hid'].
    apply has_id_iff in Hid'. auto.
  - apply (find_none _ _ E) in Hin. apply has_id_iff in Hid. congruence.
Qed.

Lemma existsb_has_id_false (u : uuid) (t : table) :
  existsb (has_id u) t = false <-> ~ In u (map Row.id t).
Proof.
  split.
  - intros E Hin. apply in_map_iff in Hin. destruct Hin as [r [Hid Hin]].
    assert (H : existsb (has_id u) t = true)
      by (apply existsb_exists; exists r; split; [exact Hin|apply has_id_iff, Hid]).
    congruence.
  - intros H. destruct (existsb (has_id u) t) eqn:E; [|reflexivity].
    apply existsb_exists in E. destruct E as [r [Hin Hid]].
    apply has_id_iff in Hid. destruct H. apply in_map_iff. exists r. auto.
Qed.

(** Nothing with id [u] is left once the rows with id [u] are deleted. *)
Lemma find_after_delete (u : uuid) (t : table) :
  find (has_id u) (filter (fun r => negb (has_id u r)) t) = None.
Proof.
  apply find_has_id_none. intros r Hin Hid.
  apply filter_In in Hin. destruct Hin as [_ Hn].
  apply has_id_iff in Hid. rewrite Hid in Hn. discriminate.
Qed.

(** The non-null isbn values of the table, one per row that has one. *)
Definition isbns (t : table) : list string :=
  flat_map (fun r => match Row.isbn r with Some i => [i] | None => [] end) t.

(** The two uniqueness constraints of the schema. *)
Definition unique_id (t : table) : Prop := NoDup (map Row.id t).
Definition unique_isbn (t : table) : Prop := NoDup (isbns t).

Lemma has_isbn_iff (i : string) (r : Row.t) :
  has_isbn i r = true <-> Row.isbn r = Some i.
Proof.
  unfold has_isbn. destruct (Row.isbn r) as [j|].
  - rewrite String.eqb_eq. split; congruence.
  - split; discriminate.
Qed.

Lemma in_isbns (i : string) (t : table) :
  In i (isbns t) <-> exists r, In r t /\ Row.isbn r = Some i.
Proof.
  unfold isbns. rewrite in_flat_map. split.
  - intros [r [Hin Hi]]. exists r. split; [exact Hin|].
    destruct (Row.isbn r) as [j|]; simpl in Hi; [|contradiction].
    destruct Hi as [->|[]]. reflexivity.
  - intros [r [Hin Hi]]. exists r. split; [exact Hin|].
    rewrite Hi. left. reflexivity.
Qed.

Lemma existsb_has_isbn_false (i : string) (t : table) :
  existsb (has_isbn i) t = false <-> ~ In i (isbns t).
Proof.
  rewrite in_isbns. split.
  - intros E [r [Hin Hi]].
    assert (H : existsb (has_isbn i) t = true)
      by (apply existsb_exists; exists r; split; [exact Hin|apply has_isbn_iff, Hi]).
    congruence.
  - intros H. destruct (existsb (has_isbn i) t) eqn:E; [|reflexivity].
    apply existsb_exists in E. destruct E as [r [Hin Hi]].
    apply has_isbn_iff in Hi. destruct H. exists r. auto.
Qed.

Lemma isbns_app (a b : table) :
  isbns (a ++ b)%list = (isbns a ++ isbns b)%list.
Proof. unfold isbns. apply flat_map_app. Qed.

Lemma unique_id_filter (f : Row.t -> bool) (t : table) :
  unique_id t -> unique_id (filter f t).
Proof.
  unfold unique_id. induction t as [|r t IH]; simpl; intros H; [exact H|].
  inversion H as [|x l Hnot Hnd]; subst.
  destruct (f r); simpl; [|exact (IH Hnd)].
  constructor; [|exact (IH Hnd)].
  intros Hin. apply Hnot. apply in_map_iff in Hin.
  destruct Hin as [r' [Hid Hin]]. apply filter_In in Hin.
  apply in_map_iff. exists r'. tauto.
Qed.

Lemma isbns_cons (r : Row.t) (t : table) :
  isbns (r :: t) =
  match Row.isbn r with
  | Some i => i :: isbns t
  | None => isbns t
  end.
Proof. unfold isbns. simpl. destruct (Row.isbn r); reflexivity. Qed.

Lemma unique_isbn_filter (f : Row.t -> bool) (t : table) :
  unique_isbn t -> unique_isbn (filter f t).
Proof.
  unfold unique_isbn. induction t as [|r t IH]; intros H; [exact H|].
  rewrite isbns_cons in H. cbn [filter].
  assert (Hnd : NoDup (isbns t))
    by (destruct (Row.isbn r); [inversion H; assumption|exact H]).
  destruct (f r); [|exact (IH Hnd)].
  rewrite isbns_cons.
  destruct (Row.isbn r) as [i|]; [|exact (IH Hnd)].
  inversion H as [|x l Hnot _]; subst.
  constructor; [|exact (IH Hnd)].
  intros Hin. apply Hnot. apply in_isbns in Hin.
  destruct Hin as [r' [Hin Hi]]. apply filter_In in Hin.
  apply in_isbns. exists r'. tauto.
Qed.

End Facts.

(** ** The handlers *)

Section Handlers.
Context `{ST : SqlTypes}.

Definition not_found (id : string) : exn :=
  APIError NotFound ("Book with ID " ++ id ++ " not found").

Definition already_exists : exn :=
  APIError AlreadyExists "A book with this ISBN already exists".

Definition no_fields : exn :=
  APIError InvalidArgument "No fields to update were provided".

(** At least one of the four updatable fields is supplied. *)
Definition supplied (p : UpdateBookParams.t) : bool :=
  match UpdateBookParams.title p, UpdateBookParams.author p,
        UpdateBookParams.publishedDate p, UpdateBookParams.isbn p with
  | None, None, None, None => false
  | _, _, _, _ => true
  end.

(** The value the DATE parameter of an insert is bound to, when the store
    accepts it. *)
Definition date_of (d : option string) : option (option date) :=
  match d with
  | None => Some None
  | Some s => option_map Some (date_in s)
  end.

(** The row an insert adds. *)
Definition new_row (fresh : uuid) (now : timestamp)
    (p : CreateBookParams.t) (d : option date) : Row.t :=
  {| Row.id := fresh;
     Row.title := CreateBookParams.title p;
     Row.author := CreateBookParams.author p;
     Row.published_date := d;
     Row.isbn := CreateBookParams.isbn p;
     Row.created_at := now;
     Row.updated_at := now |}.

(** The tables the handlers can produce from the empty one. *)
Inductive reachable : table -> Prop :=
| reach_empty : reachable []
| reach_create fresh now p t :
    reachable t -> reachable (snd (createBook fresh now p t))
| reach_update p t :
    reachable t -> reachable (snd (updateBook p t))
| reach_delete id t :
    reachable t -> reachable (snd (deleteBook id t)).

Lemma sql_select_one_malformed (id : string) (t : table) :
  uuid_in id = None ->
  sql_select_one_by_id id t = (Throw (DbError (invalid_input "uuid" id)), t).
Proof.
  intros H. unfold sql_select_one_by_id, bind_uuid. rewrite H. reflexivity.
Qed.

Lemma sql_select_one_absent (id : string) (u : uuid) (t : table) :
  uuid_in id = Some u -> (forall r, In r t -> Row.id r <> u) ->
  sql_select_one_by_id id t = (Return None, t).
Proof.
  intros H Habs. unfold sql_select_one_by_id, bind_uuid.
  rewrite H, (find_has_id_none u t Habs). reflexivity.
Qed.

Lemma sql_select_one_present (id : string) (u : uuid) (t : table) :
  uuid_in id = Some u -> (exists r, In r t /\ Row.id r = u) ->
  sql_select_one_by_id id t = (Return (Some 1%N), t).
Proof.
  intros H Hex. unfold sql_select_one_by_id, bind_uuid.
  destruct (find_has_id_some u t Hex) as [r [E _]].
  rewrite H, E. reflexivity.
Qed.

Lemma getBook_malformed (id : string) (t : table) :
  uuid_in id = None ->
  getBook id t = (Throw (DbError (invalid_input "uuid" id)), t).
Proof.
  intros H. unfold getBook, bind, sql_select_book_by_id, bind_uuid.
  rewrite H. reflexivity.
Qed.

Lemma getBook_absent (id : string) (u : uuid) (t : table) :
  uuid_in id = Some u -> (forall r, In r t -> Row.id r <> u) ->
  getBook id t = (Throw (not_found id), t).
Proof.
  intros H Habs. unfold getBook, bind, sql_select_book_by_id, bind_uuid.
  rewrite H, (find_has_id_none u t Habs). reflexivity.
Qed.

Lemma getBook_present (id : string) (u : uuid) (r : Row.t) (t : table) :
  uuid_in id = Some u -> find (has_id u) t = Some r ->
  getBook id t = (Return (select_book r), t).
Proof.
  intros H E. unfold getBook, bind, sql_select_book_by_id, bind_uuid.
  rewrite H, E. reflexivity.
Qed.

(** [deleteBook] looks for the row after it has deleted it, so with an id
    the store accepts it reports success whether or not a row was there. *)
Lemma deleteBook_well_formed (id : string) (u : uuid) (t : table) :
  uuid_in id = Some u ->
  deleteBook id t = (Return true, filter (fun r => negb (has_id u r)) t).
Proof.
  intros H.
  unfold deleteBook, bind, sql_delete_by_id, sql_select_one_by_id, bind_uuid.
  rewrite H, find_after_delete. reflexivity.
Qed.

Lemma deleteBook_malformed (id : string) (t : table) :
  uuid_in id = None ->
  deleteBook id t = (Throw (DbError (invalid_input "uuid" id)), t).
Proof.
  intros H. unfold deleteBook, bind, sql_delete_by_id, bind_uuid.
  rewrite H. reflexivity.
Qed.

Lemma updateBook_malformed (p : UpdateBookParams.t) (t : table) :
  uuid_in (UpdateBookParams.id p) = None ->
  updateBook p t =
  (Throw (DbError (invalid_input "uuid" (UpdateBookParams.id p))), t).
Proof.
  intros H. unfold updateBook, bind.
  rewrite (sql_select_one_malformed _ t H). reflexivity.
Qed.

(** With a row to update and a field to set, the UPDATE is sent, the store
    rejects it, and the error is rethrown: the row is never changed. *)
Lemma updateBook_rejected (p : UpdateBookParams.t) (u : uuid) (t : table) :
  uuid_in (UpdateBookParams.id p) = Some u ->
  (exists r, In r t /\ Row.id r = u) ->
  supplied p = true ->
  updateBook p t = (Throw (DbError (syntax_error_at "$1")), t).
Proof.
  intros H Hex Hs. unfold updateBook, bind.
  rewrite (sql_select_one_present _ u t H Hex).
  destruct p as [id [ti|] [au|] [pd|] [isb|]];
    try discriminate Hs; reflexivity.
Qed.

Lemma on_duplicate_key_throws {A} (e : exn) (t : table) :
  exists e', @on_duplicate_key _ A e t = (Throw e', t).
Proof.
  unfold on_duplicate_key.
  destruct (Text.includes (message e) "duplicate key"); eexists; reflexivity.
Qed.

Lemma updateBook_table (p : UpdateBookParams.t) (t : table) :
  snd (updateBook p t) = t.
Proof.
  unfold updateBook, bind, sql_select_one_by_id, bind_uuid.
  destruct (uuid_in (UpdateBookParams.id p)) as [u|]; [|reflexivity].
  destruct (find (has_id u) t); [|reflexivity].
  cbn [option_map]. unfold try_catch.
  destruct (build_updates p) as [updates values].
  match goal with |- context [if ?c then _ else _] => destruct c end.
  - cbn [throw]. reflexivity.
  - cbn [bind sql_update_set throw].
    destruct (on_duplicate_key_throws (A := Book.t)
                (DbError (syntax_error_at "$1")) t) as [e' E].
    unfold bind, sql_update_set, throw. rewrite E. reflexivity.
Qed.

Lemma updateBook_never_returns (p : UpdateBookParams.t) (t : table) :
  exists e, fst (updateBook p t) = Throw e.
Proof.
  unfold updateBook, bind, sql_select_one_by_id, bind_uuid.
  destruct (uuid_in (UpdateBookParams.id p)) as [u|]; [|eexists; reflexivity].
  destruct (find (has_id u) t); [|eexists; reflexivity].
  cbn [option_map]. unfold try_catch.
  destruct (build_updates p) as [updates values].
  match goal with |- context [if ?c then _ else _] => destruct c end.
  - eexists; reflexivity.
  - eexists; reflexivity.
Qed.

(** The error of an insert whose DATE parameter the store rejects. *)
Definition bad_date (p : CreateBookParams.t) : exn :=
  DbError (invalid_input "date"
             match CreateBookParams.publishedDate p with
             | Some s => s
             | None => ""
             end).

(** The error of a text parameter that holds a NUL character. *)
Definition nul_error : exn := DbError invalid_byte_sequence.

Definition nul_in (s : option string) : bool :=
  match s with
  | Some x => Text.has_nul x
  | None => false
  end.

(** Title, author and isbn hold no NUL character. *)
Definition accepted_text (p : CreateBookParams.t) : bool :=
  negb (Text.has_nul (CreateBookParams.title p))
  && negb (Text.has_nul (CreateBookParams.author p))
  && negb (nul_in (CreateBookParams.isbn p)).

(** What [createBook] does, case by case. *)
Lemma createBook_cases (fresh : uuid) (now : timestamp)
    (p : CreateBookParams.t) (t : table) :
  createBook fresh now p t =
  if Text.has_nul (CreateBookParams.title p)
     || Text.has_nul (CreateBookParams.author p)
  then (Throw nul_error, t)
  else
    match date_of (CreateBookParams.publishedDate p) with
    | None => on_duplicate_key (bad_date p) t
    | Some d =>
        if nul_in (CreateBookParams.isbn p) then (Throw nul_error, t)
        else if existsb (has_id fresh) t then (Throw already_exists, t)
        else if match CreateBookParams.isbn p with
                | Some i => existsb (has_isbn i) t
                | None => false
                end
        then (Throw already_exists, t)
        else (Return (select_book (new_row fresh now p d)),
              (t ++ [new_row fresh now p d])%list)
    end.
Proof.
  unfold createBook, try_catch, bind, sql_insert_book, bind_text_opt,
    bind_text, bind_date, date_of, nul_in.
  unfold new_row, bad_date.
  destruct (Text.has_nul (CreateBookParams.title p)); [reflexivity|].
  destruct (Text.has_nul (CreateBookParams.author p)); [reflexivity|].
  cbn [orb].
  destruct (CreateBookParams.publishedDate p) as [s|].
  - destruct (date_in s) as [d|]; cbn [option_map]; [|reflexivity].
    destruct (CreateBookParams.isbn p) as [i|].
    + destruct (Text.has_nul i); [reflexivity|].
      destruct (existsb (has_id fresh) t); [reflexivity|].
      destruct (existsb (has_isbn i) t); reflexivity.
    + destruct (existsb (has_id fresh) t); reflexivity.
  - destruct (CreateBookParams.isbn p) as [i|].
    + destruct (Text.has_nul i); [reflexivity|].
      destruct (existsb (has_id fresh) t); [reflexivity|].
      destruct (existsb (has_isbn i) t); reflexivity.
    + destruct (existsb (has_id fresh) t); reflexivity.
Qed.

Lemma accepted_text_cases (p : CreateBookParams.t) :
  accepted_text p = true ->
  Text.has_nul (CreateBookParams.title p)
  || Text.has_nul (CreateBookParams.author p) = false
  /\ nul_in (CreateBookParams.isbn p) = false.
Proof.
  unfold accepted_text. intros H.
  apply Bool.andb_true_iff in H. destruct H as [H Hi].
  apply Bool.andb_true_iff in H. destruct H as [Ht Ha].
  apply Bool.negb_true_iff in Hi, Ht, Ha. rewrite Ht, Ha. auto.
Qed.

Lemma createBook_returns (fresh : uuid) (now : timestamp)
    (p : CreateBookParams.t) (t t' : table) (b : Book.t) :
  createBook fresh now p t = (Return b, t') ->
  exists d, date_of (CreateBookParams.publishedDate p) = Some d
    /\ ~ In fresh (map Row.id t)
    /\ (forall i, CreateBookParams.isbn p = Some i -> ~ In i (isbns t))
    /\ b = select_book (new_row fresh now p d)
    /\ t' = (t ++ [new_row fresh now p d])%list.
Proof.
  rewrite createBook_cases. intros H.
  destruct (Text.has_nul (CreateBookParams.title p)
            || Text.has_nul (CreateBookParams.author p)); [discriminate|].
  destruct (date_of (CreateBookParams.publishedDate p)) as [d|].
  - exists d. split; [reflexivity|].
    destruct (nul_in (CreateBookParams.isbn p)); [discriminate|].
    destruct (existsb (has_id fresh) t) eqn:Eid; [discriminate|].
    apply existsb_has_id_false in Eid.
    destruct (CreateBookParams.isbn p) as [i|] eqn:Ei.
    + destruct (existsb (has_isbn i) t) eqn:Eis; [discriminate|].
      apply existsb_has_isbn_false in Eis.
      inversion H. subst. repeat split; try assumption.
      intros j Hj. inversion Hj. subst. exact Eis.
    + inversion H. subst. repeat split; try assumption.
      intros j Hj. discriminate.
  - destruct (on_duplicate_key_throws (A := Book.t) (bad_date p) t) as [e' E].
    rewrite E in H. discriminate.
Qed.

(** A create that returns a Book was given no NUL character. *)
Lemma createBook_returns_text (fresh : uuid) (now : timestamp)
    (p : CreateBookParams.t) (t t' : table) (b : Book.t) :
  createBook fresh now p t = (Return b, t') -> accepted_text p = true.
Proof.
  rewrite createBook_cases. unfold accepted_text. intros H.
  destruct (Text.has_nul (CreateBookParams.title p)); [discriminate|].
  destruct (Text.has_nul (CreateBookParams.author p)); [discriminate|].
  cbn [orb] in H.
  destruct (date_of (CreateBookParams.publishedDate p)) as [d|].
  - destruct (nul_in (CreateBookParams.isbn p)); [discriminate|reflexivity].
  - destruct (on_duplicate_key_throws (A := Book.t) (bad_date p) t) as [e' E].
    rewrite E in H. discriminate.
Qed.

Lemma createBook_succeeds (fresh : uuid) (now : timestamp)
    (p : CreateBookParams.t) (d : option date) (t : table) :
  accepted_text p = true ->
  date_of (CreateBookParams.publishedDate p) = Some d ->
  ~ In fresh (map Row.id t) ->
  (forall i, CreateBookParams.isbn p = Some i -> ~ In i (isbns t)) ->
  createBook fresh now p t =
  (Return (select_book (new_row fresh now p d)),
   (t ++ [new_row fresh now p d])%list).
Proof.
  intros Hok Hd Hid Hi. rewrite createBook_cases, Hd.
  destruct (accepted_text_cases p Hok) as [-> ->].
  apply existsb_has_id_false in Hid. rewrite Hid.
  destruct (CreateBookParams.isbn p) as [i|]; [|reflexivity].
  specialize (Hi i eq_refl). apply existsb_has_isbn_false in Hi.
  rewrite Hi. reflexivity.
Qed.

(** X5: createBook with an isbn that a row already holds, a date the
    store accepts and no NUL character in title, author and isbn fails
    with AlreadyExists and leaves the table as it was. *)
Lemma createBook_duplicate_isbn (fresh : uuid) (now : timestamp)
    (p : CreateBookParams.t) (d : option date) (i : string) (t : table) :
  accepted_text p = true ->
  date_of (CreateBookParams.publishedDate p) = Some d ->
  CreateBookParams.isbn p = Some i ->
  In i (isbns t) ->
  createBook fresh now p t = (Throw already_exists, t).
Proof.
  intros Hok Hd Hi Hin. rewrite createBook_cases, Hd.
  destruct (accepted_text_cases p Hok) as [-> ->]. rewrite Hi.
  assert (E : existsb (has_isbn i) t = true).
  { destruct (existsb (has_isbn i) t) eqn:E; [reflexivity|].
    apply existsb_has_isbn_false in E. contradiction. }
  rewrite E. destruct (existsb (has_id fresh) t); reflexivity.
Qed.

Lemma createBook_table (fresh : uuid) (now : timestamp)
    (p : CreateBookParams.t) (t : table) :
  snd (createBook fresh now p t) = t
  \/ exists d, snd (createBook fresh now p t) = (t ++ [new_row fresh now p d])%list
       /\ ~ In fresh (map Row.id t)
       /\ (forall i, CreateBookParams.isbn p = Some i -> ~ In i (isbns t)).
Proof.
  destruct (createBook fresh now p t) as [[b|e] t'] eqn:E.
  - right. apply createBook_returns in E.
    destruct E as [d [_ [Hid [Hi [_ Ht]]]]]. exists d. auto.
  - left. rewrite createBook_cases in E.
    destruct (Text.has_nul (CreateBookParams.title p)
              || Text.has_nul (CreateBookParams.author p));
      [inversion E; reflexivity|].
    destruct (date_of (CreateBookParams.publishedDate p)) as [d|].
    + destruct (nul_in (CreateBookParams.isbn p)); [inversion E; reflexivity|].
      destruct (existsb (has_id fresh) t); [inversion E; reflexivity|].
      destruct (match CreateBookParams.isbn p with
                | Some i => existsb (has_isbn i) t
                | None => false
                end); inversion E; reflexivity.
    + destruct (on_duplicate_key_throws (A := Book.t) (bad_date p) t)
        as [e' E'].
      rewrite E' in E. inversion E. reflexivity.
Qed.

Lemma deleteBook_table (id : string) (t : table) :
  snd (deleteBook id t) = t
  \/ exists u, snd (deleteBook id t) = filter (fun r => negb (has_id u r)) t.
Proof.
  destruct (uuid_in id) as [u|] eqn:E.
  - right. exists u. rewrite (deleteBook_well_formed id u t E). reflexivity.
  - left. rewrite (deleteBook_malformed id t E). reflexivity.
Qed.

(** The primary key and the UNIQUE constraint hold in every table the
    handlers can produce. *)
Lemma reachable_constraints (t : table) :
  reachable t -> unique_id t /\ unique_isbn t.
Proof.
  induction 1 as [|fresh now p t _ [IHid IHisbn]
                  |p t _ IH|id t _ [IHid IHisbn]].
  - split; constructor.
  - destruct (createBook_table fresh now p t) as [->|[d [-> [Hid Hi]]]];
      [split; assumption|].
    split.
    + unfold unique_id. rewrite map_app. simpl.
      eapply Permutation_NoDup; [apply Permutation_cons_append|].
      constructor; assumption.
    + unfold unique_isbn. rewrite isbns_app, isbns_cons. simpl.
      destruct (CreateBookParams.isbn p) as [i|].
      * eapply Permutation_NoDup; [apply Permutation_cons_append|].
        constructor; [apply Hi; reflexivity|assumption].
      * rewrite app_nil_r. assumption.
  - rewrite updateBook_table. exact IH.
  - destruct (deleteBook_table id t) as [->|[u ->]]; [split; assumption|].
    split; [apply unique_id_filter|apply unique_isbn_filter]; assumption.
Qed.

End Handlers.

(** ** What the handlers return *)

Section Claims.
Context `{ST : SqlTypes} `{LC : Locale}.

(** Title order on the returned Books. *)
Definition book_title_le (a b : Book.t) : Prop :=
  text_leb (Book.title a) (Book.title b) = true.

(** The title or the author contains the query, case-insensitively. *)
Definition book_contains (query : string) (b : Book.t) : bool :=
  contains_ci (Book.title b) query || contains_ci (Book.author b) query.

(** [text ILIKE pattern] holds. *)
Definition ilike_holds (text pattern : string) : bool :=
  match Like.ilike text_lower text pattern with
  | Some b => b
  | None => false
  end.

(** The title or the author matches the pattern [%query%], the query being
    put in the pattern as it is. *)
Definition book_ilike (query : string) (b : Book.t) : bool :=
  ilike_holds (Book.title b) ("%" ++ query ++ "%")
  || ilike_holds (Book.author b) ("%" ++ query ++ "%").

(** The same row with other timestamps. *)
Definition restamp (c u : Row.t -> timestamp) (r : Row.t) : Row.t :=
  {| Row.id := Row.id r;
     Row.title := Row.title r;
     Row.author := Row.author r;
     Row.published_date := Row.published_date r;
     Row.isbn := Row.isbn r;
     Row.created_at := c r;
     Row.updated_at := u r |}.

Lemma uuid_out_injective (a b : uuid) : uuid_out a = uuid_out b -> a = b.
Proof.
  intros H. apply (f_equal uuid_in) in H.
  rewrite !uuid_in_out in H. congruence.
Qed.

Lemma sorted_books (rows : list Row.t) :
  StronglySorted title_le rows ->
  StronglySorted book_title_le (map select_book rows).
Proof.
  induction 1 as [|r rows Hs IH Hr]; simpl; constructor; [exact IH|].
  apply Forall_map. exact Hr.
Qed.

Lemma unique_book_ids (rows : list Row.t) :
  unique_id rows -> NoDup (map Book.id (map select_book rows)).
Proof.
  unfold unique_id. rewrite map_map. simpl.
  induction rows as [|r rows IH]; simpl; intros H; [constructor|].
  inversion H as [|x l Hnot Hnd]; subst.
  constructor; [|exact (IH Hnd)].
  intros Hin. apply Hnot. apply in_map_iff in Hin.
  destruct Hin as [r' [E Hin]]. apply uuid_out_injective in E.
  apply in_map_iff. exists r'. auto.
Qed.

Lemma filter_select_book (f : Book.t -> bool) (rows : list Row.t) :
  filter f (map select_book rows)
  = map select_book (filter (fun r => f (select_book r)) rows).
Proof.
  induction rows as [|r rows IH]; simpl; [reflexivity|].
  destruct (f (select_book r)); simpl; congruence.
Qed.

Lemma filter_where_total (f : Row.t -> option bool) (g : Row.t -> bool)
    (t : table) :
  (forall r, f r = Some (g r)) -> filter_where f t = Some (filter g t).
Proof.
  intros H. induction t as [|r t IH]; simpl; [reflexivity|].
  rewrite H, IH. destruct (g r); reflexivity.
Qed.

Lemma where_ilike_search (query : string) (r : Row.t) :
  where_ilike ("%" ++ query ++ "%") ("%" ++ query ++ "%") r
  = Some (book_ilike query (select_book r)).
Proof.
  unfold where_ilike, book_ilike, ilike_holds.
  cbn [select_book Book.title Book.author].
  destruct (ilike_search_pattern (Row.title r) query) as [a ->].
  destruct (ilike_search_pattern (Row.author r) query) as [b ->].
  reflexivity.
Qed.

Lemma book_ilike_plain (query : string) (b : Book.t) :
  Like.plain query = true -> book_ilike query b = book_contains query b.
Proof.
  intros H. unfold book_ilike, book_contains, ilike_holds.
  rewrite !(ilike_plain _ query H). reflexivity.
Qed.

(** C9: listBooks never fails and changes nothing; it returns the Book of
    every row of the table, each row once, in ascending title order; on the
    empty table it returns the empty sequence; and in a table the handlers
    produced no two returned Books share an id. *)
Theorem listBooks_all_sorted (t : table) :
  exists books,
    listBooks t = (Return books, t)
    /\ Permutation books (map select_book t)
    /\ StronglySorted book_title_le books
    /\ (t = [] -> books = [])
    /\ (reachable t -> NoDup (map Book.id books)).
Proof.
  exists (map select_book (order_by_title t)).
  split; [reflexivity|].
  split; [apply Permutation_map, order_by_title_perm|].
  split; [apply sorted_books, order_by_title_sorted|].
  split; [intros ->; reflexivity|].
  intros Hr. apply unique_book_ids.
  unfold unique_id.
  eapply Permutation_NoDup;
    [symmetry; apply Permutation_map, order_by_title_perm|].
  apply (reachable_constraints t Hr).
Qed.

Lemma searchBooks_accepted (query : string) (t : table) :
  Text.has_nul query = false ->
  searchBooks query t
  = (Return (map select_book
               (order_by_title
                  (filter (fun r => book_ilike query (select_book r)) t))),
     t).
Proof.
  intros Hn. unfold searchBooks, bind, sql_select_books_ilike, bind_text.
  rewrite has_nul_search_pattern, Hn.
  rewrite (filter_where_total _ (fun r => book_ilike query (select_book r)) t
             (where_ilike_search query)).
  reflexivity.
Qed.

(** C3 (amended): a query that holds a NUL character is rejected by the
    store and searchBooks throws that error.  For every other query
    searchBooks returns, without error and also when nothing matches, in
    ascending title order, exactly the Books whose title or author matches
    the pattern [%query%] under ILIKE, the query standing in the pattern
    unescaped; when the query has none of the pattern characters
    (percent, underscore, backslash) these are exactly the Books whose
    title or author contains the query as a case-insensitive substring. *)
Theorem searchBooks_pattern_match (query : string) (t : table) :
  (Text.has_nul query = true ->
   searchBooks query t = (Throw nul_error, t))
  /\ (Text.has_nul query = false ->
      exists books,
        searchBooks query t = (Return books, t)
        /\ StronglySorted book_title_le books
        /\ Permutation books (filter (book_ilike query) (map select_book t))
        /\ (Like.plain query = true ->
            Permutation books
              (filter (book_contains query) (map select_book t)))).
Proof.
  split.
  - intros Hn. unfold searchBooks, bind, sql_select_books_ilike, bind_text.
    rewrite has_nul_search_pattern, Hn. reflexivity.
  - intros Hn.
    set (g := fun r => book_ilike query (select_book r)).
    exists (map select_book (order_by_title (filter g t))).
    assert (Hperm : Permutation (map select_book (order_by_title (filter g t)))
                      (filter (book_ilike query) (map select_book t))).
    { rewrite filter_select_book. apply Permutation_map, order_by_title_perm. }
    split; [apply (searchBooks_accepted query t Hn)|].
    split; [apply sorted_books, order_by_title_sorted|].
    split; [exact Hperm|].
    intros Hplain. rewrite Hperm.
    rewrite (filter_ext _ _ (fun b => book_ilike_plain query b Hplain)).
    reflexivity.
Qed.

(** When no row matches the pattern the result is the empty sequence. *)
Lemma searchBooks_no_match (query : string) (t : table) :
  Text.has_nul query = false ->
  (forall r, In r t -> book_ilike query (select_book r) = false) ->
  searchBooks query t = (Return [], t).
Proof.
  intros Hn H. rewrite (searchBooks_accepted query t Hn).
  assert (E : filter (fun r => book_ilike query (select_book r)) t = []).
  { induction t as [|r t IH]; simpl; [reflexivity|].
    rewrite (H r (or_introl eq_refl)). apply IH.
    intros r' Hr'. apply H. right. exact Hr'. }
  rewrite E. reflexivity.
Qed.

(** C4 (amended): getBook fails with NotFound for every id the store
    accepts as a UUID and that no row carries; the service does not check
    the format of the id, and an id the store rejects makes getBook fail
    with the store's error, not with NotFound. *)
Theorem getBook_not_found (id : string) (t : table) :
  (forall u, uuid_in id = Some u -> (forall r, In r t -> Row.id r <> u) ->
     getBook id t = (Throw (not_found id), t))
  /\ (uuid_in id = None ->
      getBook id t = (Throw (DbError (invalid_input "uuid" id)), t)).
Proof.
  split.
  - intros u. apply getBook_absent.
  - apply getBook_malformed.
Qed.

(** C6 (amended): updateBook fails with NotFound, whatever fields are
    supplied and also when none is, for every id the store accepts as a
    UUID and that no row carries: the existence check comes before the
    field count. *)
Theorem updateBook_not_found (p : UpdateBookParams.t) (u : uuid) (t : table) :
  uuid_in (UpdateBookParams.id p) = Some u ->
  (forall r, In r t -> Row.id r <> u) ->
  updateBook p t = (Throw (not_found (UpdateBookParams.id p)), t).
Proof.
  intros H Habs. unfold updateBook, bind.
  rewrite (sql_select_one_absent _ u t H Habs). reflexivity.
Qed.

(** C7: updateBook with none of title, author, publishedDate and isbn
    supplied fails with InvalidArgument for the id of an existing row, and
    the table is left as it was. *)
Theorem updateBook_no_fields (id : string) (u : uuid) (t : table) :
  uuid_in id = Some u ->
  (exists r, In r t /\ Row.id r = u) ->
  updateBook (UpdateBookParams.mk id None None None None) t
  = (Throw no_fields, t).
Proof.
  intros H Hex. unfold updateBook, bind. simpl UpdateBookParams.id.
  rewrite (sql_select_one_present id u t H Hex). reflexivity.
Qed.

Lemma find_app_none {A} (f : A -> bool) (l l' : list A) :
  find f l = None -> find f (l ++ l')%list = find f l'.
Proof.
  induction l as [|x l IH]; simpl; [reflexivity|].
  destruct (f x); [discriminate|exact IH].
Qed.

(** C8: after a createBook that succeeds, getBook with the returned id
    returns the very Book that createBook returned; its title, author and
    isbn are the supplied ones, and its publishedDate is the supplied date
    as the store prints it (absent when none was supplied). *)
Theorem createBook_then_getBook (fresh : uuid) (now : timestamp)
    (p : CreateBookParams.t) (t t' : table) (b : Book.t) :
  createBook fresh now p t = (Return b, t') ->
  getBook (Book.id b) t' = (Return b, t')
  /\ Book.title b = CreateBookParams.title p
  /\ Book.author b = CreateBookParams.author p
  /\ Book.isbn b = CreateBookParams.isbn p
  /\ match CreateBookParams.publishedDate p with
     | Some s => exists d, date_in s = Some d
                   /\ Book.publishedDate b = Some (date_out d)
     | None => Book.publishedDate b = None
     end.
Proof.
  intros H. apply createBook_returns in H.
  destruct H as [d [Hd [Hid [_ [-> ->]]]]].
  split.
  - apply (getBook_present _ fresh); [apply uuid_in_out|].
    apply existsb_has_id_false in Hid.
    rewrite find_app_none.
    + simpl. unfold has_id at 1. simpl.
      assert (E : uuid_eqb fresh fresh = true) by (apply uuid_eqb_eq; reflexivity).
      rewrite E. reflexivity.
    + destruct (find (has_id fresh) t) as [r|] eqn:E; [|reflexivity].
      apply find_some in E. destruct E as [Hin Hr].
      assert (existsb (has_id fresh) t = true)
        by (apply existsb_exists; exists r; auto).
      congruence.
  - repeat split.
    unfold date_of in Hd.
    destruct (CreateBookParams.publishedDate p) as [s|].
    + destruct (date_in s) as [v|]; [|discriminate].
      inversion Hd. subst. exists v. auto.
    + inversion Hd. reflexivity.
Qed.

Lemma map_select_book_restamp (c u : Row.t -> timestamp) (l : list Row.t) :
  map select_book (map (restamp c u) l) = map select_book l.
Proof. rewrite map_map. reflexivity. Qed.

Lemma insert_by_title_restamp (c u : Row.t -> timestamp) (r : Row.t)
    (l : list Row.t) :
  insert_by_title (restamp c u r) (map (restamp c u) l)
  = map (restamp c u) (insert_by_title r l).
Proof.
  induction l as [|x l IH]; simpl; [reflexivity|].
  destruct (text_leb (Row.title r) (Row.title x)); simpl; congruence.
Qed.

Lemma order_by_title_restamp (c u : Row.t -> timestamp) (l : list Row.t) :
  order_by_title (map (restamp c u) l) = map (restamp c u) (order_by_title l).
Proof.
  induction l as [|r l IH]; simpl; [reflexivity|].
  rewrite IH. apply insert_by_title_restamp.
Qed.

Lemma find_restamp (c u : Row.t -> timestamp) (v : uuid) (l : list Row.t) :
  find (has_id v) (map (restamp c u) l)
  = option_map (restamp c u) (find (has_id v) l).
Proof.
  induction l as [|r l IH]; simpl; [reflexivity|].
  change (has_id v (restamp c u r)) with (has_id v r).
  destruct (has_id v r); [reflexivity|exact IH].
Qed.

Lemma existsb_restamp (c u : Row.t -> timestamp) (f : Row.t -> bool)
    (l : list Row.t) :
  (forall r, f (restamp c u r) = f r) ->
  existsb f (map (restamp c u) l) = existsb f l.
Proof.
  intros H. induction l as [|r l IH]; simpl; [reflexivity|].
  rewrite H, IH. reflexivity.
Qed.

Lemma filter_where_restamp (c u : Row.t -> timestamp)
    (f : Row.t -> option bool) (l : list Row.t) :
  (forall r, f (restamp c u r) = f r) ->
  filter_where f (map (restamp c u) l)
  = option_map (map (restamp c u)) (filter_where f l).
Proof.
  intros H. induction l as [|r l IH]; simpl; [reflexivity|].
  rewrite H, IH.
  destruct (f r) as [[|]|]; destruct (filter_where f l); reflexivity.
Qed.

(** C10: a returned Book is made of the five columns id, title, author,
    published_date and isbn and of nothing else: with the created_at and
    updated_at of every row replaced by anything, and with any
    CURRENT_TIMESTAMP, listBooks, getBook, searchBooks, createBook and
    updateBook return what they returned before. *)
Theorem books_hide_timestamps (c u : Row.t -> timestamp) (t : table) :
  fst (listBooks (map (restamp c u) t)) = fst (listBooks t)
  /\ (forall id, fst (getBook id (map (restamp c u) t)) = fst (getBook id t))
  /\ (forall query,
        fst (searchBooks query (map (restamp c u) t))
        = fst (searchBooks query t))
  /\ (forall fresh now now' p,
        fst (createBook fresh now p (map (restamp c u) t))
        = fst (createBook fresh now' p t))
  /\ (forall p, fst (updateBook p (map (restamp c u) t)) = fst (updateBook p t)).
Proof.
  split; [|split; [|split; [|split]]].
  - unfold listBooks, bind, sql_select_books, ret. simpl.
    rewrite order_by_title_restamp, map_select_book_restamp. reflexivity.
  - intros id. unfold getBook, bind, sql_select_book_by_id, bind_uuid.
    destruct (uuid_in id) as [v|]; [|reflexivity].
    rewrite find_restamp. destruct (find (has_id v) t); reflexivity.
  - intros query.
    unfold searchBooks, bind, sql_select_books_ilike, bind_text.
    destruct (Text.has_nul ("%" ++ query ++ "%")); [reflexivity|].
    rewrite filter_where_restamp by reflexivity.
    destruct (filter_where _ t) as [rows|]; [|reflexivity].
    simpl. rewrite order_by_title_restamp, map_select_book_restamp.
    reflexivity.
  - intros fresh now now' p. rewrite !createBook_cases.
    destruct (Text.has_nul (CreateBookParams.title p)
              || Text.has_nul (CreateBookParams.author p)); [reflexivity|].
    destruct (date_of (CreateBookParams.publishedDate p)) as [d|].
    + destruct (nul_in (CreateBookParams.isbn p)); [reflexivity|].
      rewrite (existsb_restamp c u (has_id fresh)) by reflexivity.
      destruct (existsb (has_id fresh) t); [reflexivity|].
      destruct (CreateBookParams.isbn p) as [i|]; [|reflexivity].
      rewrite (existsb_restamp c u (has_isbn i)) by reflexivity.
      destruct (existsb (has_isbn i) t); reflexivity.
    + unfold on_duplicate_key.
      destruct (Text.includes (message (bad_date p)) "duplicate key");
        reflexivity.
  - intros p. unfold updateBook, bind, sql_select_one_by_id, bind_uuid.
    destruct (uuid_in (UpdateBookParams.id p)) as [v|]; [|reflexivity].
    rewrite find_restamp. destruct (find (has_id v) t); [|reflexivity].
    cbn [option_map]. unfold try_catch.
    destruct (build_updates p) as [updates values].
    match goal with |- context [if ?b then _ else _] => destruct b end;
      reflexivity.
Qed.

End Claims.

Section Isbn.
Context `{ST : SqlTypes}.

(** X7: no two rows of a table the handlers produced share a non-null
    isbn. *)
Lemma isbn_unique_at_all_times (t : table) : reachable t -> unique_isbn t.
Proof. intros H. apply (reachable_constraints t H). Qed.

(** X6: two Books created one after the other without isbn, with no NUL
    character in title and author, are both accepted: the UNIQUE
    constraint does not apply to an absent isbn. *)
Lemma createBook_twice_without_isbn (k1 k2 : uuid) (n1 n2 : timestamp)
    (p1 p2 : CreateBookParams.t) (d1 d2 : option date) (t : table) :
  CreateBookParams.isbn p1 = None -> CreateBookParams.isbn p2 = None ->
  accepted_text p1 = true -> accepted_text p2 = true ->
  date_of (CreateBookParams.publishedDate p1) = Some d1 ->
  date_of (CreateBookParams.publishedDate p2) = Some d2 ->
  ~ In k1 (map Row.id t) -> ~ In k2 (map Row.id t) -> k1 <> k2 ->
  exists b1 b2 t1 t2,
    createBook k1 n1 p1 t = (Return b1, t1)
    /\ createBook k2 n2 p2 t1 = (Return b2, t2).
Proof.
  intros Hi1 Hi2 Ha1 Ha2 Hd1 Hd2 Hk1 Hk2 Hne.
  exists (select_book (new_row k1 n1 p1 d1)),
         (select_book (new_row k2 n2 p2 d2)),
         (t ++ [new_row k1 n1 p1 d1])%list,
         ((t ++ [new_row k1 n1 p1 d1]) ++ [new_row k2 n2 p2 d2])%list.
  split.
  - apply createBook_succeeds; try assumption.
    intros i Hi. congruence.
  - apply createBook_succeeds; try assumption.
    + rewrite map_app, in_app_iff. simpl. intros [H|[H|[]]]; auto.
    + intros i Hi. congruence.
Qed.

End Isbn.

(** ** Runs on the concrete store *)

Module Scenario.
Import Pg.
Import C_ctype.

Definition key (s : string)
    (H : (List.length (list_ascii_of_string s) =? 16)%nat = true) : pg_uuid :=
  {| octets := list_ascii_of_string s; octets_16 := H |}.

Definition key_a : pg_uuid := key "AAAAAAAAAAAAAAAA" eq_refl.
Definition key_b : pg_uuid := key "BBBBBBBBBBBBBBBB" eq_refl.
Definition key_0 : pg_uuid :=
  {| octets := repeat "000"%char 16; octets_16 := eq_refl |}.

Definition id_a : string := "41414141-4141-4141-4141-414141414141".
Definition id_b : string := "42424242-4242-4242-4242-424242424242".
Definition id_0 : string := "00000000-0000-0000-0000-000000000000".

(** The Book of the service's own tests. *)
Definition testBook : CreateBookParams.t :=
  {| CreateBookParams.title := "Test Book";
     CreateBookParams.author := "Test Author";
     CreateBookParams.publishedDate := Some "2023-01-01";
     CreateBookParams.isbn := Some "1234567890123" |}.

Definition otherBook : CreateBookParams.t :=
  {| CreateBookParams.title := "Another Book";
     CreateBookParams.author := "Another Author";
     CreateBookParams.publishedDate := None;
     CreateBookParams.isbn := Some "9876543210123" |}.

(** The table after [createBook testBook], and after a second create. *)
Definition one_book : table := snd (createBook key_a 1%N testBook []).
Definition two_books : table := snd (createBook key_b 2%N otherBook one_book).

Definition created : Book.t :=
  {| Book.id := id_a;
     Book.title := "Test Book";
     Book.author := "Test Author";
     Book.publishedDate := Some "2023-01-01";
     Book.isbn := Some "1234567890123" |}.

Lemma create_testBook :
  createBook key_a 1%N testBook [] = (Return created, one_book).
Proof. reflexivity. Qed.

(** C1: deleting an id that no row carries reports success, on the empty
    table and again after the row has been deleted once; the claim asks for
    NotFound in both cases. *)
Theorem deleteBook_missing_reports_success :
  deleteBook id_0 [] = (Return true, [])
  /\ deleteBook id_a one_book = (Return true, [])
  /\ deleteBook id_a (snd (deleteBook id_a one_book)) = (Return true, []).
Proof. repeat split. Qed.

(** C2: the update of the service's own test, title and author of an
    existing Book, is rejected by the store and changes nothing; the claim
    asks for the two fields to be changed and the new row returned. *)
Theorem updateBook_title_author_rejected :
  updateBook
    {| UpdateBookParams.id := id_a;
       UpdateBookParams.title := Some "Updated Test Book";
       UpdateBookParams.author := Some "Updated Test Author";
       UpdateBookParams.publishedDate := None;
       UpdateBookParams.isbn := None |} one_book
  = (Throw (DbError (syntax_error_at "$1")), one_book)
  /\ fst (getBook id_a one_book) = Return created.
Proof. split; reflexivity. Qed.

(** C5: an update that gives the second Book the isbn of the first fails
    with the store's error on the statement, not with AlreadyExists. *)
Theorem updateBook_isbn_collision_not_already_exists :
  updateBook
    {| UpdateBookParams.id := id_b;
       UpdateBookParams.title := None;
       UpdateBookParams.author := None;
       UpdateBookParams.publishedDate := None;
       UpdateBookParams.isbn := Some "1234567890123" |} two_books
  = (Throw (DbError (syntax_error_at "$1")), two_books).
Proof. reflexivity. Qed.

(** A query of one NUL character. *)
Definition nul_query : string := String "000" "".

(** C3, as stated, fails: the query "_" returns the test Book, whose title
    and author do not contain an underscore; and with a query that holds a
    NUL character, which no title or author contains, searchBooks throws
    instead of returning the empty sequence. *)
Lemma searchBooks_underscore_and_nul :
  fst (searchBooks "_" one_book) = Return [created]
  /\ book_contains "_" created = false
  /\ fst (searchBooks nul_query one_book) = Throw nul_error
  /\ book_contains nul_query created = false.
Proof. repeat split. Qed.

(** C4, as stated, fails: an id that is no UUID makes getBook fail with the
    store's error, which is not NotFound. *)
Lemma getBook_malformed_id_store_error :
  getBook "not-a-uuid" one_book
  = (Throw (DbError (invalid_input "uuid" "not-a-uuid")), one_book)
  /\ (forall r, In r one_book -> uuid_out (Row.id r) <> "not-a-uuid").
Proof.
  split; [reflexivity|].
  intros r [<-|[]]. apply String.eqb_neq. reflexivity.
Qed.

(** C6, as stated, fails: with an id that is no UUID updateBook fails with
    the store's error, which is not NotFound. *)
Lemma updateBook_malformed_id_store_error :
  updateBook (UpdateBookParams.mk "not-a-uuid" (Some "T") None None None) one_book
  = (Throw (DbError (invalid_input "uuid" "not-a-uuid")), one_book)
  /\ (forall r, In r one_book -> uuid_out (Row.id r) <> "not-a-uuid").
Proof.
  split; [reflexivity|].
  intros r [<-|[]]. apply String.eqb_neq. reflexivity.
Qed.

Lemma listBooks_all_sorted_witness :
  exists books,
    listBooks two_books = (Return books, two_books)
    /\ Permutation books (map select_book two_books)
    /\ StronglySorted book_title_le books
    /\ (two_books = [] -> books = [])
    /\ (reachable two_books -> NoDup (map Book.id books)).
Proof. exact (listBooks_all_sorted two_books). Defined.

Lemma searchBooks_pattern_match_witness :
  searchBooks nul_query two_books = (Throw nul_error, two_books)
  /\ Like.plain "test" = true
  /\ exists books,
       searchBooks "test" two_books = (Return books, two_books)
       /\ StronglySorted book_title_le books
       /\ Permutation books
            (filter (book_ilike "test") (map select_book two_books))
       /\ (Like.plain "test" = true ->
           Permutation books
             (filter (book_contains "test") (map select_book two_books))).
Proof.
  destruct (searchBooks_pattern_match (ST := store) nul_query two_books)
    as [Hnul _].
  destruct (searchBooks_pattern_match (ST := store) "test" two_books)
    as [_ Hok].
  split; [exact (Hnul eq_refl)|]. split; [reflexivity|].
  exact (Hok eq_refl).
Defined.

Lemma getBook_not_found_witness :
  getBook id_0 one_book = (Throw (not_found id_0), one_book)
  /\ getBook "not-a-uuid" one_book
     = (Throw (DbError (invalid_input "uuid" "not-a-uuid")), one_book).
Proof.
  destruct (getBook_not_found id_0 one_book) as [Habsent _].
  destruct (getBook_not_found "not-a-uuid" one_book) as [_ Hbad].
  split.
  - apply (Habsent key_0); [reflexivity|].
    intros r [<-|[]]. intros H. apply (f_equal octets) in H. discriminate H.
  - apply Hbad. reflexivity.
Defined.

Lemma updateBook_not_found_witness :
  updateBook (UpdateBookParams.mk id_0 None None None None) one_book
  = (Throw (not_found id_0), one_book).
Proof.
  apply (updateBook_not_found (ST := store)
           (UpdateBookParams.mk id_0 None None None None) key_0 one_book).
  - reflexivity.
  - intros r [<-|[]]. intros H. apply (f_equal octets) in H. discriminate H.
Defined.

Lemma updateBook_no_fields_witness :
  updateBook (UpdateBookParams.mk id_a None None None None) one_book
  = (Throw no_fields, one_book).
Proof.
  apply (updateBook_no_fields (ST := store) id_a key_a one_book).
  - reflexivity.
  - eexists. split; [left; reflexivity|]. reflexivity.
Defined.

Lemma createBook_then_getBook_witness :
  getBook (Book.id created) one_book = (Return created, one_book)
  /\ Book.title created = "Test Book"
  /\ Book.author created = "Test Author"
  /\ Book.isbn created = Some "1234567890123"
  /\ exists d, date_in "2023-01-01" = Some d
       /\ Book.publishedDate created = Some (date_out d).
Proof.
  exact (createBook_then_getBook (ST := store) key_a 1%N testBook []
           one_book created create_testBook).
Defined.

End Scenario.

(** ** How the handlers compose *)

Section Composition.
Context `{ST : SqlTypes} `{LC : Locale}.

(** The error [updateBook] ends with, by the id, the table and the fields. *)
Definition updateBook_error (p : UpdateBookParams.t) (t : table) : exn :=
  match uuid_in (UpdateBookParams.id p) with
  | None => DbError (invalid_input "uuid" (UpdateBookParams.id p))
  | Some u =>
      if existsb (has_id u) t then
        if supplied p then DbError (syntax_error_at "$1") else no_fields
      else not_found (UpdateBookParams.id p)
  end.

(** The supplied fields, column and value, in the order the handler looks
    at them. *)
Definition supplied_fields (p : UpdateBookParams.t) : list (string * string) :=
  flat_map (fun cv : string * option string =>
              match snd cv with
              | Some x => [(fst cv, x)]
              | None => []
              end)
    [("title", UpdateBookParams.title p);
     ("author", UpdateBookParams.author p);
     ("published_date", UpdateBookParams.publishedDate p);
     ("isbn", UpdateBookParams.isbn p)].

(** One assignment per field, the placeholders numbered from [i]. *)
Fixpoint assignments (i : nat) (fields : list (string * string)) : list string :=
  match fields with
  | [] => []
  | cv :: fields' =>
      (fst cv ++ " = $" ++ Text.of_nat i) :: assignments (S i) fields'
  end.

(** The Books [listBooks] returns. *)
Definition listed (t : table) : list Book.t :=
  map select_book (order_by_title t).

(** The Book has another id than the one [u] is printed as. *)
Definition other_id (u : uuid) (b : Book.t) : bool :=
  negb (Book.id b =? uuid_out u)%string.

(** The query is made of percent signs only (the empty query is). *)
Fixpoint only_percent (q : string) : bool :=
  match q with
  | EmptyString => true
  | String c q' => (c =? "%")%char && only_percent q'
  end.

Lemma uuid_eqb_refl (u : uuid) : uuid_eqb u u = true.
Proof. apply uuid_eqb_eq. reflexivity. Qed.

Lemma has_id_false (u : uuid) (r : Row.t) :
  has_id u r = false <-> Row.id r <> u.
Proof.
  rewrite <- has_id_iff. destruct (has_id u r); split; congruence.
Qed.

Lemma listBooks_listed (t : table) : listBooks t = (Return (listed t), t).
Proof. reflexivity. Qed.

Lemma find_append {A} (f : A -> bool) (l l' : list A) :
  find f (l ++ l')%list
  = match find f l with
    | Some x => Some x
    | None => find f l'
    end.
Proof.
  induction l as [|x l IH]; simpl; [reflexivity|].
  destruct (f x); [reflexivity|exact IH].
Qed.

Lemma find_after_delete_other (u u' : uuid) (t : table) :
  u <> u' ->
  find (has_id u') (filter (fun r => negb (has_id u r)) t)
  = find (has_id u') t.
Proof.
  intros Hne. induction t as [|r t IH]; simpl; [reflexivity|].
  destruct (has_id u r) eqn:Eu; simpl.
  - apply has_id_iff in Eu.
    assert (E : has_id u' r = false) by (apply has_id_false; congruence).
    rewrite E. exact IH.
  - destruct (has_id u' r); [reflexivity|exact IH].
Qed.

Lemma filter_filter_same {A} (f : A -> bool) (l : list A) :
  filter f (filter f l) = filter f l.
Proof.
  induction l as [|x l IH]; simpl; [reflexivity|].
  destruct (f x) eqn:E; simpl; [rewrite E, IH|]; auto.
Qed.

Lemma permutation_filter {A} (f : A -> bool) (l l' : list A) :
  Permutation l l' -> Permutation (filter f l) (filter f l').
Proof.
  induction 1 as [|x l l' _ IH|x y l|l l' l'' _ IH1 _ IH2]; simpl.
  - constructor.
  - destruct (f x); [constructor|]; exact IH.
  - destruct (f x), (f y); try reflexivity. apply perm_swap.
  - etransitivity; eassumption.
Qed.

Lemma other_id_select_book (u : uuid) (r : Row.t) :
  other_id u (select_book r) = negb (has_id u r).
Proof.
  unfold other_id, has_id. simpl. f_equal.
  destruct (uuid_eqb (Row.id r) u) eqn:E.
  - apply uuid_eqb_eq in E. subst. apply String.eqb_refl.
  - apply String.eqb_neq. intros H. apply uuid_out_injective in H.
    apply uuid_eqb_eq in H. congruence.
Qed.

Lemma unique_id_same_row (t : table) (a b : Row.t) :
  unique_id t -> In a t -> In b t -> Row.id a = Row.id b -> a = b.
Proof.
  unfold unique_id. induction t as [|r t IH]; simpl; [intros _ []|].
  intros H Ha Hb E. inversion H as [|x l Hnot Hnd]; subst.
  destruct Ha as [->|Ha], Hb as [->|Hb].
  - reflexivity.
  - destruct Hnot. rewrite E. apply in_map. exact Hb.
  - destruct Hnot. rewrite <- E. apply in_map. exact Ha.
  - exact (IH Hnd Ha Hb E).
Qed.

Lemma filter_where_ext (f g : Row.t -> option bool) (t : table) :
  (forall r, f r = g r) -> filter_where f t = filter_where g t.
Proof.
  intros H. induction t as [|r t IH]; simpl; [reflexivity|].
  rewrite H, IH. reflexivity.
Qed.

Lemma lower_only_percent (q : string) :
  only_percent q = true -> text_lower q = q.
Proof.
  induction q as [|c q IH]; simpl; [intros _; apply text_lower_empty|].
  intros H. apply Bool.andb_true_iff in H. destruct H as [Hc Hq].
  apply Ascii.eqb_eq in Hc. subst c.
  rewrite text_lower_percent_first, (IH Hq). reflexivity.
Qed.

Lemma only_percent_no_nul (q : string) :
  only_percent q = true -> Text.has_nul q = false.
Proof.
  induction q as [|c q IH]; simpl; [reflexivity|].
  intros H. apply Bool.andb_true_iff in H. destruct H as [Hc Hq].
  apply Ascii.eqb_eq in Hc. subst c. exact (IH Hq).
Qed.

Lemma only_percent_append (a b : string) :
  only_percent a = true -> only_percent b = true ->
  only_percent (a ++ b) = true.
Proof.
  induction a as [|c a IH]; simpl; intros Ha Hb; [exact Hb|].
  apply Bool.andb_true_iff in Ha. destruct Ha as [Hc Ha].
  rewrite Hc, (IH Ha Hb). reflexivity.
Qed.

Lemma parse_only_percent (p : string) :
  only_percent p = true ->
  Like.parse p = Some (repeat Like.Any (String.length p)).
Proof.
  induction p as [|c p IH]; simpl; [reflexivity|].
  intros H. apply Bool.andb_true_iff in H. destruct H as [Hc Hp].
  apply Ascii.eqb_eq in Hc. subst c. simpl. rewrite (IH Hp). reflexivity.
Qed.

Lemma matches_all_any (n : nat) (s : string) :
  Like.matches (repeat Like.Any (S n)) s = true.
Proof.
  induction n as [|n IH]; [apply matches_trailing_any|].
  change (repeat Like.Any (S (S n))) with (Like.Any :: repeat Like.Any (S n)).
  cbn [Like.matches existsb]. rewrite IH. reflexivity.
Qed.

(** X1: updateBook always ends with an error and leaves the table as it
    was; the error is the store's for an id that is no UUID, NotFound when
    no row has the id, InvalidArgument when a row has it and no field is
    supplied, and the store's rejection of the UPDATE otherwise. *)
Theorem updateBook_outcome (p : UpdateBookParams.t) (t : table) :
  updateBook p t = (Throw (updateBook_error p t), t).
Proof.
  unfold updateBook_error.
  destruct (uuid_in (UpdateBookParams.id p)) as [u|] eqn:E;
    [|apply updateBook_malformed; exact E].
  destruct (existsb (has_id u) t) eqn:Ex.
  - apply existsb_exists in Ex. destruct Ex as [r [Hin Hid]].
    apply has_id_iff in Hid.
    assert (Hex : exists r, In r t /\ Row.id r = u) by (exists r; auto).
    destruct (supplied p) eqn:Hs.
    + apply (updateBook_rejected p u t E Hex Hs).
    + unfold updateBook, bind.
      rewrite (sql_select_one_present _ u t E Hex).
      destruct p as [id [ti|] [au|] [pd|] [isb|]];
        try discriminate Hs; reflexivity.
  - apply existsb_has_id_false in Ex. unfold updateBook, bind.
    rewrite (sql_select_one_absent _ u t E); [reflexivity|].
    intros r Hin Hid. apply Ex. rewrite <- Hid. apply in_map. exact Hin.
Qed.

(** X2: the arrays updateBook builds line up: [values] holds the supplied
    values in the order title, author, published_date, isbn, and [updates]
    holds one assignment per value, the k-th naming placeholder $k,
    followed by the updated_at assignment. *)
Theorem build_updates_aligned (p : UpdateBookParams.t) :
  build_updates p
  = ((assignments 1 (supplied_fields p)
      ++ ["updated_at = CURRENT_TIMESTAMP"])%list,
     map snd (supplied_fields p)).
Proof. destruct p as [id [ti|] [au|] [pd|] [isb|]]; reflexivity. Qed.

(** X3: createBook is all or nothing: when it throws the table is as it
    was, and when it returns a Book exactly one row was appended, the row
    of that Book, with the generated id and both timestamps set to the
    current time. *)
Theorem createBook_atomic (fresh : uuid) (now : timestamp)
    (p : CreateBookParams.t) (t : table) :
  match createBook fresh now p t with
  | (Throw _, t') => t' = t
  | (Return b, t') =>
      exists r, t' = (t ++ [r])%list /\ select_book r = b
        /\ Row.id r = fresh
        /\ Row.created_at r = now /\ Row.updated_at r = now
  end.
Proof.
  rewrite createBook_cases.
  destruct (Text.has_nul (CreateBookParams.title p)
            || Text.has_nul (CreateBookParams.author p)); [reflexivity|].
  destruct (date_of (CreateBookParams.publishedDate p)) as [d|].
  - destruct (nul_in (CreateBookParams.isbn p)); [reflexivity|].
    destruct (existsb (has_id fresh) t); [reflexivity|].
    destruct (match CreateBookParams.isbn p with
              | Some i => existsb (has_isbn i) t
              | None => false
              end); [reflexivity|].
    exists (new_row fresh now p d). repeat split.
  - destruct (on_duplicate_key_throws (A := Book.t) (bad_date p) t) as [e ->].
    reflexivity.
Qed.

(** X4: createBook returns a Book only when title, author and isbn hold
    no NUL character, the store accepted the publishedDate (or none was
    supplied), the generated id was new, and the isbn, if supplied, was in
    no row. *)
Theorem createBook_accepts (fresh : uuid) (now : timestamp)
    (p : CreateBookParams.t) (t t' : table) (b : Book.t) :
  createBook fresh now p t = (Return b, t') ->
  accepted_text p = true
  /\ (exists d, date_of (CreateBookParams.publishedDate p) = Some d)
  /\ ~ In fresh (map Row.id t)
  /\ (forall i, CreateBookParams.isbn p = Some i -> ~ In i (isbns t)).
Proof.
  intros H. split; [exact (createBook_returns_text _ _ _ _ _ _ H)|].
  apply createBook_returns in H.
  destruct H as [d [Hd [Hid [Hi _]]]]. split; [exists d; exact Hd|]. auto.
Qed.

(** X8: after deleteBook with an id the store accepts, getBook with the
    same id fails with NotFound. *)
Theorem deleteBook_then_getBook (id : string) (u : uuid) (t : table) :
  uuid_in id = Some u ->
  getBook id (snd (deleteBook id t))
  = (Throw (not_found id), snd (deleteBook id t)).
Proof.
  intros H. rewrite (deleteBook_well_formed id u t H). simpl snd.
  apply (getBook_absent id u _ H).
  intros r Hin Hid. apply filter_In in Hin. destruct Hin as [_ Hn].
  apply has_id_iff in Hid. rewrite Hid in Hn. discriminate.
Qed.

(** X9: deleteBook leaves the other Books alone: getBook with an id that
    reads as another UUID gives after the delete what it gave before. *)
Theorem deleteBook_keeps_others (id id' : string) (u' : uuid) (t : table) :
  uuid_in id' = Some u' -> uuid_in id <> Some u' ->
  fst (getBook id' (snd (deleteBook id t))) = fst (getBook id' t).
Proof.
  intros H' Hne. destruct (uuid_in id) as [u|] eqn:E.
  - rewrite (deleteBook_well_formed id u t E). simpl snd.
    unfold getBook, bind, sql_select_book_by_id, bind_uuid. rewrite H'.
    rewrite find_after_delete_other by congruence.
    destruct (find (has_id u') t); reflexivity.
  - rewrite (deleteBook_malformed id t E). reflexivity.
Qed.

(** X10: a second deleteBook with the same id has the outcome of the first
    and leaves the table as the first left it. *)
Theorem deleteBook_twice (id : string) (t : table) :
  deleteBook id (snd (deleteBook id t)) = deleteBook id t.
Proof.
  destruct (uuid_in id) as [u|] eqn:E.
  - rewrite !(deleteBook_well_formed id u _ E). simpl snd.
    rewrite filter_filter_same. reflexivity.
  - rewrite !(deleteBook_malformed id _ E). reflexivity.
Qed.

(** X11: after deleteBook with an id the store accepts, listBooks returns
    the Books it returned before without those of that id. *)
Theorem deleteBook_then_listBooks (id : string) (u : uuid) (t : table) :
  uuid_in id = Some u ->
  exists before after,
    fst (listBooks t) = Return before
    /\ fst (listBooks (snd (deleteBook id t))) = Return after
    /\ Permutation after (filter (other_id u) before).
Proof.
  intros H. exists (listed t), (listed (snd (deleteBook id t))).
  split; [reflexivity|]. split; [reflexivity|].
  rewrite (deleteBook_well_formed id u t H). simpl snd. unfold listed.
  etransitivity; [apply Permutation_map, order_by_title_perm|].
  etransitivity;
    [|apply permutation_filter, Permutation_map; symmetry;
      apply order_by_title_perm].
  rewrite filter_select_book.
  rewrite (filter_ext _ _ (other_id_select_book u)). reflexivity.
Qed.

(** X12: after a createBook that returns a Book, listBooks returns the
    Books it returned before and the new one. *)
Theorem createBook_then_listBooks (fresh : uuid) (now : timestamp)
    (p : CreateBookParams.t) (t t' : table) (b : Book.t) :
  createBook fresh now p t = (Return b, t') ->
  exists before after,
    fst (listBooks t) = Return before
    /\ fst (listBooks t') = Return after
    /\ Permutation after (b :: before).
Proof.
  intros H. apply createBook_returns in H.
  destruct H as [d [_ [_ [_ [-> ->]]]]].
  exists (listed t), (listed (t ++ [new_row fresh now p d])%list).
  split; [reflexivity|]. split; [reflexivity|]. unfold listed.
  etransitivity; [apply Permutation_map, order_by_title_perm|].
  rewrite map_app. simpl.
  etransitivity; [symmetry; apply Permutation_cons_append|].
  apply perm_skip, Permutation_map. symmetry. apply order_by_title_perm.
Qed.

(** X13: createBook leaves the other Books alone, whether it succeeds or
    not: getBook with an id that reads as another UUID than the generated
    one gives afterwards what it gave before. *)
Theorem createBook_keeps_others (fresh : uuid) (now : timestamp)
    (p : CreateBookParams.t) (id' : string) (u' : uuid) (t : table) :
  uuid_in id' = Some u' -> u' <> fresh ->
  fst (getBook id' (snd (createBook fresh now p t))) = fst (getBook id' t).
Proof.
  intros H' Hne.
  destruct (createBook_table fresh now p t) as [->|[d [-> _]]];
    [reflexivity|].
  unfold getBook, bind, sql_select_book_by_id, bind_uuid. rewrite H'.
  rewrite find_append.
  destruct (find (has_id u') t); [reflexivity|].
  simpl. assert (E : has_id u' (new_row fresh now p d) = false)
    by (apply has_id_false; simpl; congruence).
  rewrite E. reflexivity.
Qed.

(** X14: a Book that getBook returns is one of those listBooks returns,
    its id reads as the same UUID as the id asked for, and the table is
    not changed. *)
Theorem getBook_is_listed (id : string) (t t' : table) (b : Book.t) :
  getBook id t = (Return b, t') ->
  t' = t
  /\ (exists books, fst (listBooks t) = Return books /\ In b books)
  /\ uuid_in (Book.id b) = uuid_in id.
Proof.
  unfold getBook, bind, sql_select_book_by_id, bind_uuid.
  destruct (uuid_in id) as [u|]; [|discriminate].
  destruct (find (has_id u) t) as [r|] eqn:E; [|discriminate].
  simpl. intros H. injection H as Hb Ht. subst b t'.
  apply find_some in E. destruct E as [Hin Hid]. apply has_id_iff in Hid.
  split; [reflexivity|]. split.
  - exists (listed t). split; [reflexivity|].
    apply in_map. eapply Permutation_in; [|exact Hin].
    symmetry. apply order_by_title_perm.
  - simpl. rewrite uuid_in_out, Hid. reflexivity.
Qed.

(** X15: in a table the handlers produced, every Book listBooks returns
    is returned by getBook with that Book's id. *)
Theorem listBooks_then_getBook (t : table) (books : list Book.t) (b : Book.t) :
  reachable t ->
  fst (listBooks t) = Return books -> In b books ->
  getBook (Book.id b) t = (Return b, t).
Proof.
  intros Hr Hl Hin. rewrite listBooks_listed in Hl. simpl in Hl.
  inversion Hl. subst books. unfold listed in Hin.
  apply in_map_iff in Hin. destruct Hin as [r [<- Hin]].
  apply (Permutation_in _ (order_by_title_perm t)) in Hin.
  destruct (find_has_id_some (Row.id r) t) as [r' [E [Hin' Hid]]];
    [exists r; auto|].
  assert (r' = r)
    by (apply (unique_id_same_row t);
        [apply (reachable_constraints t Hr)|assumption..]).
  subst r'. apply (getBook_present _ (Row.id r)); [apply uuid_in_out|exact E].
Qed.

(** X16: searchBooks does not tell the case of the letters of the query:
    two queries that differ only in it return the same. *)
Theorem searchBooks_query_case (q1 q2 : string) (t : table) :
  Text.lower q1 = Text.lower q2 -> searchBooks q1 t = searchBooks q2 t.
Proof.
  intros H.
  assert (Hn : Text.has_nul q1 = Text.has_nul q2)
    by (rewrite <- (has_nul_lower q1), <- (has_nul_lower q2), H; reflexivity).
  assert (Hf : text_lower q1 = text_lower q2)
    by (rewrite <- (text_lower_ascii q1), <- (text_lower_ascii q2), H;
        reflexivity).
  unfold searchBooks, bind, sql_select_books_ilike, bind_text.
  rewrite !has_nul_search_pattern, Hn.
  destruct (Text.has_nul q2); [reflexivity|]. cbn beta.
  rewrite (filter_where_ext
             (where_ilike ("%" ++ q1 ++ "%") ("%" ++ q1 ++ "%"))
             (where_ilike ("%" ++ q2 ++ "%") ("%" ++ q2 ++ "%"))).
  - reflexivity.
  - intros r. unfold where_ilike, Like.ilike.
    rewrite !search_pattern_lower, Hf. reflexivity.
Qed.

(** X17: with the empty query, or one made of percent signs only,
    searchBooks returns every Book: it does what listBooks does. *)
Theorem searchBooks_only_percent (query : string) (t : table) :
  only_percent query = true -> searchBooks query t = listBooks t.
Proof.
  intros H. unfold searchBooks, bind, sql_select_books_ilike, bind_text.
  rewrite has_nul_search_pattern, (only_percent_no_nul query H). cbn beta.
  rewrite (filter_where_total _ (fun _ => true) t).
  - rewrite filter_true. reflexivity.
  - intros r.
    assert (Hp : only_percent ("%" ++ query ++ "%") = true)
      by (apply (only_percent_append "%");
          [reflexivity|apply only_percent_append; [exact H|reflexivity]]).
    unfold where_ilike, Like.ilike, Like.like.
    rewrite (lower_only_percent _ Hp), (parse_only_percent _ Hp).
    change (String.length ("%" ++ query ++ "%"))
      with (S (String.length (query ++ "%"))).
    cbn [option_map]. rewrite !matches_all_any. reflexivity.
Qed.

End Composition.

(** ** The clean-up of the service's tests

    [afterAll] of book-service.test.ts: it deletes the Book the tests created,
    then every listed Book whose title contains "Test Book"; an error stops
    it and is only logged. *)

Section Cleanup.
Context `{ST : SqlTypes}.

(** [for (const x of l) { await body(x); }] *)
Fixpoint for_of {A} (l : list A) (body : A -> DB unit) : DB unit :=
  match l with
  | [] => ret tt
  | x :: l' => bind (body x) (fun _ => for_of l' body)
  end.

(** A string is truthy when it is defined and not empty. *)
Definition truthy (s : option string) : bool :=
  match s with
  | Some x => negb (x =? "")%string
  | None => false
  end.

Definition afterAll (createdBookId : option string) : DB unit :=
  try_catch
    (bind (match createdBookId with
           | Some id =>
               if truthy createdBookId
               then bind (deleteBook id) (fun _ => ret tt)
               else ret tt
           | None => ret tt
           end)
       (fun _ =>
          bind listBooks (fun books =>
            for_of books (fun book =>
              if Text.includes (Book.title book) "Test Book"
              then bind (deleteBook (Book.id book)) (fun _ => ret tt)
              else ret tt))))
    (fun error => ret tt).

(** The row is one of a test Book. *)
Definition test_row (r : Row.t) : bool :=
  Text.includes (Row.title r) "Test Book".

(** The table once the rows with id [u] are deleted. *)
Definition without (u : uuid) (t : table) : table :=
  filter (fun r => negb (has_id u r)) t.

(** One turn of the loop. *)
Definition cleanup_step (t : table) (r : Row.t) : table :=
  if test_row r then without (Row.id r) t else t.

(** The table after the first delete of [afterAll]; [None] when the store
    rejects the id. *)
Definition after_created (createdBookId : option string) (t : table)
    : option table :=
  match createdBookId with
  | Some id =>
      if truthy createdBookId
      then option_map (fun u => without u t) (uuid_in id)
      else Some t
  | None => Some t
  end.

Lemma in_without (u : uuid) (t : table) (r : Row.t) :
  In r (without u t) <-> In r t /\ Row.id r <> u.
Proof.
  unfold without. rewrite filter_In, Bool.negb_true_iff, has_id_false.
  reflexivity.
Qed.

Lemma for_of_cleanup (rows : list Row.t) : forall t : table,
  for_of (map select_book rows)
    (fun book =>
       if Text.includes (Book.title book) "Test Book"
       then bind (deleteBook (Book.id book)) (fun _ => ret tt)
       else ret tt) t
  = (Return tt, fold_left cleanup_step rows t).
Proof.
  induction rows as [|r rows IH]; intros t; [reflexivity|].
  cbn [map for_of fold_left]. unfold bind at 1.
  cbn [select_book Book.title Book.id]. unfold cleanup_step at 2.
  fold (test_row r). destruct (test_row r).
  - unfold bind at 1.
    rewrite (deleteBook_well_formed _ (Row.id r) t (uuid_in_out _)).
    cbn [ret]. apply IH.
  - cbn [ret]. apply IH.
Qed.

Lemma in_cleanup (rows : list Row.t) : forall (t : table) (r : Row.t),
  In r (fold_left cleanup_step rows t)
  <-> In r t
      /\ forall r', In r' rows -> test_row r' = true -> Row.id r <> Row.id r'.
Proof.
  induction rows as [|a rows IH]; intros t r; cbn [fold_left].
  - split; [intros H; split; [exact H|intros r' []]|intros [H _]; exact H].
  - rewrite IH. unfold cleanup_step at 1. split.
    + intros [Hin Hrest].
      destruct (test_row a) eqn:Ea.
      * apply in_without in Hin. destruct Hin as [Hin Hne].
        split; [exact Hin|]. intros r' [<-|Hr'] Ht; [exact Hne|].
        apply Hrest; assumption.
      * split; [exact Hin|]. intros r' [<-|Hr'] Ht; [congruence|].
        apply Hrest; assumption.
    + intros [Hin Hall]. split.
      * destruct (test_row a) eqn:Ea; [|exact Hin].
        apply in_without. split; [exact Hin|].
        apply Hall; [left; reflexivity|exact Ea].
      * intros r' Hr' Ht. apply Hall; [right; exact Hr'|exact Ht].
Qed.

Lemma afterAll_runs (createdBookId : option string) (t : table) :
  afterAll createdBookId t
  = (Return tt,
     match after_created createdBookId t with
     | Some t1 => fold_left cleanup_step (order_by_title t1) t1
     | None => t
     end).
Proof.
  unfold afterAll, after_created, try_catch.
  destruct createdBookId as [id|].
  - destruct (truthy (Some id)).
    + destruct (uuid_in id) as [u|] eqn:E.
      * unfold bind at 1. unfold bind at 1.
        rewrite (deleteBook_well_formed id u t E). cbn [ret option_map].
        unfold bind at 1. rewrite listBooks_listed. unfold listed.
        rewrite for_of_cleanup. reflexivity.
      * unfold bind at 1. unfold bind at 1.
        rewrite (deleteBook_malformed id t E). reflexivity.
    + unfold bind at 1. cbn [ret]. unfold bind at 1.
      rewrite listBooks_listed. unfold listed.
      rewrite for_of_cleanup. reflexivity.
  - unfold bind at 1. cbn [ret]. unfold bind at 1.
    rewrite listBooks_listed. unfold listed.
    rewrite for_of_cleanup. reflexivity.
Qed.

Lemma after_created_sub (createdBookId : option string) (t t1 : table)
    (r : Row.t) :
  after_created createdBookId t = Some t1 -> In r t1 -> In r t.
Proof.
  unfold after_created. destruct createdBookId as [id|].
  - destruct (truthy (Some id)).
    + destruct (uuid_in id) as [u|]; [|discriminate].
      simpl. intros H Hin. inversion H. subst t1.
      apply in_without in Hin. tauto.
    + intros H. inversion H. auto.
  - intros H. inversion H. auto.
Qed.

(** X18: the clean-up never throws and only deletes, whatever id it is
    given; and when that id is empty, absent or accepted by the store, no
    Book whose title contains "Test Book" is left afterwards. *)
Theorem afterAll_removes_test_books (createdBookId : option string)
    (t : table) :
  exists t',
    afterAll createdBookId t = (Return tt, t')
    /\ (forall r, In r t' -> In r t)
    /\ ((forall id, createdBookId = Some id -> id <> "" ->
           uuid_in id <> None) ->
        forall r, In r t' ->
          Text.includes (Row.title r) "Test Book" = false).
Proof.
  rewrite afterAll_runs. eexists. split; [reflexivity|].
  destruct (after_created createdBookId t) as [t1|] eqn:E.
  - split.
    + intros r Hin. apply in_cleanup in Hin. destruct Hin as [Hin _].
      exact (after_created_sub _ _ _ _ E Hin).
    + intros _ r Hin. apply in_cleanup in Hin. destruct Hin as [Hin Hall].
      destruct (Text.includes (Row.title r) "Test Book") eqn:Et;
        [|reflexivity].
      exfalso. apply (Hall r); [|exact Et|reflexivity].
      eapply Permutation_in; [symmetry; apply order_by_title_perm|exact Hin].
  - split; [intros r Hin; exact Hin|].
    intros Hok. exfalso. unfold after_created in E.
    destruct createdBookId as [id|]; [|discriminate].
    destruct (truthy (Some id)) eqn:Et; [|discriminate].
    destruct (uuid_in id) eqn:Eu; [discriminate|].
    apply (Hok id eq_refl); [|exact Eu].
    simpl in Et. apply Bool.negb_true_iff, String.eqb_neq in Et. exact Et.
Qed.

(** X19: the clean-up keeps what is not a test Book: in a table with
    unique ids, a row whose title does not contain "Test Book" and whose
    id is not the one the clean-up is given is still there afterwards; and
    when the store rejects the given id the clean-up deletes nothing. *)
Theorem afterAll_keeps_others (createdBookId : option string) (t : table) :
  exists t',
    afterAll createdBookId t = (Return tt, t')
    /\ (unique_id t ->
        forall r, In r t ->
          Text.includes (Row.title r) "Test Book" = false ->
          (forall id, createdBookId = Some id ->
             uuid_in id <> Some (Row.id r)) ->
          In r t')
    /\ (forall id, createdBookId = Some id -> id <> "" ->
        uuid_in id = None -> t' = t).
Proof.
  rewrite afterAll_runs. eexists. split; [reflexivity|]. split.
  - intros Hu r Hin Ht Hid.
    destruct (after_created createdBookId t) as [t1|] eqn:E; [|exact Hin].
    apply in_cleanup.
    assert (Hin1 : In r t1).
    { unfold after_created in E. destruct createdBookId as [id|].
      - destruct (truthy (Some id)).
        + destruct (uuid_in id) as [u|] eqn:Eu; [|discriminate].
          simpl in E. inversion E. apply in_without. split; [exact Hin|].
          intros H. apply (Hid id eq_refl). congruence.
        + inversion E. subst. exact Hin.
      - inversion E. subst. exact Hin. }
    split; [exact Hin1|]. intros r' Hr' Ht' Heq.
    apply (Permutation_in _ (order_by_title_perm t1)) in Hr'.
    assert (r = r')
      by (apply (unique_id_same_row t); auto;
          exact (after_created_sub _ _ _ _ E Hr')).
    subst r'. unfold test_row in Ht'. congruence.
  - intros id -> Hne Eu. unfold after_created.
    assert (Et : truthy (Some id) = true)
      by (simpl; apply Bool.negb_true_iff, String.eqb_neq; exact Hne).
    rewrite Et, Eu. reflexivity.
Qed.

End Cleanup.

(** ** More runs on the concrete store *)

Module Examples.
Import Pg.
Import C_ctype.
Import Scenario.

Lemma id_a_reads : uuid_in id_a = Some key_a.
Proof. reflexivity. Qed.

Lemma id_b_reads : uuid_in id_b = Some key_b.
Proof. reflexivity. Qed.

Lemma key_a_not_key_b : key_a <> key_b.
Proof. intros H. apply (f_equal octets) in H. discriminate H. Qed.

Lemma two_books_reachable : reachable two_books.
Proof.
  exact (reach_create key_b 2%N otherBook one_book
           (reach_create key_a 1%N testBook [] reach_empty)).
Qed.

Lemma create_otherBook :
  createBook key_b 2%N otherBook one_book
  = (Return (select_book (new_row key_b 2%N otherBook None)), two_books).
Proof. reflexivity. Qed.

Lemma createBook_duplicate_isbn_witness :
  createBook key_b 2%N testBook one_book = (Throw already_exists, one_book).
Proof.
  apply (createBook_duplicate_isbn (ST := store) key_b 2%N testBook
           (Some (2023, 1, 1)%N) "1234567890123" one_book).
  - reflexivity.
  - reflexivity.
  - reflexivity.
  - left. reflexivity.
Defined.

Lemma createBook_accepts_witness :
  accepted_text otherBook = true
  /\ (exists d, date_of (CreateBookParams.publishedDate otherBook) = Some d)
  /\ ~ In key_b (map Row.id one_book)
  /\ (forall i, CreateBookParams.isbn otherBook = Some i ->
      ~ In i (isbns one_book)).
Proof.
  exact (createBook_accepts (ST := store) key_b 2%N otherBook one_book
           two_books _ create_otherBook).
Defined.

Lemma createBook_twice_without_isbn_witness :
  exists b1 b2 t1 t2,
    createBook key_a 1%N (CreateBookParams.mk "A" "B" None None) []
    = (Return b1, t1)
    /\ createBook key_b 2%N (CreateBookParams.mk "C" "D" None None) t1
       = (Return b2, t2).
Proof.
  apply (createBook_twice_without_isbn (ST := store) key_a key_b 1%N 2%N
           (CreateBookParams.mk "A" "B" None None)
           (CreateBookParams.mk "C" "D" None None) None None []).
  - reflexivity.
  - reflexivity.
  - reflexivity.
  - reflexivity.
  - reflexivity.
  - reflexivity.
  - intros [].
  - intros [].
  - exact key_a_not_key_b.
Defined.

Lemma isbn_unique_at_all_times_witness : unique_isbn two_books.
Proof.
  exact (isbn_unique_at_all_times (ST := store) two_books two_books_reachable).
Defined.

Lemma deleteBook_then_getBook_witness :
  getBook id_a (snd (deleteBook id_a two_books))
  = (Throw (not_found id_a), snd (deleteBook id_a two_books)).
Proof.
  exact (deleteBook_then_getBook (ST := store) id_a key_a two_books id_a_reads).
Defined.

Lemma deleteBook_keeps_others_witness :
  fst (getBook id_b (snd (deleteBook id_a two_books)))
  = fst (getBook id_b two_books).
Proof.
  apply (deleteBook_keeps_others (ST := store) id_a id_b key_b two_books).
  - exact id_b_reads.
  - rewrite id_a_reads. intros H. apply key_a_not_key_b. congruence.
Defined.

Lemma deleteBook_then_listBooks_witness :
  exists before after,
    fst (listBooks two_books) = Return before
    /\ fst (listBooks (snd (deleteBook id_a two_books))) = Return after
    /\ Permutation after (filter (other_id key_a) before).
Proof.
  exact (deleteBook_then_listBooks (ST := store) id_a key_a two_books
           id_a_reads).
Defined.

Lemma createBook_then_listBooks_witness :
  exists before after,
    fst (listBooks one_book) = Return before
    /\ fst (listBooks two_books) = Return after
    /\ Permutation after
         (select_book (new_row key_b 2%N otherBook None) :: before).
Proof.
  exact (createBook_then_listBooks (ST := store) key_b 2%N otherBook one_book
           two_books _ create_otherBook).
Defined.

Lemma createBook_keeps_others_witness :
  fst (getBook id_a (snd (createBook key_b 2%N otherBook one_book)))
  = fst (getBook id_a one_book).
Proof.
  apply (createBook_keeps_others (ST := store) key_b 2%N otherBook id_a key_a
           one_book).
  - exact id_a_reads.
  - exact key_a_not_key_b.
Defined.

Lemma get_created : getBook id_a two_books = (Return created, two_books).
Proof. reflexivity. Qed.

Lemma getBook_is_listed_witness :
  two_books = two_books
  /\ (exists books, fst (listBooks two_books) = Return books /\ In created books)
  /\ uuid_in (Book.id created) = uuid_in id_a.
Proof.
  exact (getBook_is_listed (ST := store) id_a two_books two_books created
           get_created).
Defined.

Lemma listBooks_then_getBook_witness :
  getBook (Book.id created) two_books = (Return created, two_books).
Proof.
  apply (listBooks_then_getBook (ST := store) two_books (listed two_books)
           created).
  - exact two_books_reachable.
  - reflexivity.
  - right. left. reflexivity.
Defined.

Lemma searchBooks_query_case_witness :
  searchBooks "TEST book" two_books = searchBooks "test BOOK" two_books.
Proof.
  apply (searchBooks_query_case (ST := store) "TEST book" "test BOOK" two_books).
  reflexivity.
Defined.

Lemma searchBooks_only_percent_witness :
  searchBooks "" two_books = listBooks two_books
  /\ searchBooks "%%" two_books = listBooks two_books.
Proof.
  split.
  - apply (searchBooks_only_percent (ST := store) "" two_books). reflexivity.
  - apply (searchBooks_only_percent (ST := store) "%%" two_books). reflexivity.
Defined.

Lemma afterAll_removes_test_books_witness :
  exists t',
    afterAll (Some id_a) two_books = (Return tt, t')
    /\ (forall r, In r t' -> In r two_books)
    /\ forall r, In r t' -> Text.includes (Row.title r) "Test Book" = false.
Proof.
  destruct (afterAll_removes_test_books (ST := store) (Some id_a) two_books)
    as [t' [Hrun [Hsub Hclean]]].
  exists t'. split; [exact Hrun|]. split; [exact Hsub|].
  apply Hclean. intros id H _. injection H as <-. rewrite id_a_reads.
  discriminate.
Defined.

End Examples.
